(** * Speak: recording / transcription coordination engine

    A shallow embedding of [speak.py]: the configuration constants, the
    Quartz event-tap callback that routes hot keys, the [SpeakDaemon]
    methods that start and stop a recording, and the hand-over of a
    finished clip to a transcription worker.

    Sequential code is written in a small state-and-output monad over the
    daemon's fields.  The two places where threads meet (the audio callback
    against [stop_recording], the model loader against the transcription
    workers) are given as step relations over program points. *)

From Stdlib Require Import ZArith List Bool Lia String Floats Uint63.
Import ListNotations.

Set Warnings "-inexact-float,-register-all".
Open Scope Z_scope.

(** ** Configuration constants *)

Module Config.

Definition SAMPLE_RATE : Z := 16000.
Definition CHANNELS : Z := 1.

Definition KEYCODE_R : Z := 15.
Definition KEYCODE_T : Z := 17.

Definition BEEP_VOLUME : float := 0.3%float.
Definition BEEP_DURATION : float := 0.1%float.

Definition MIN_RECORDING_DURATION : float := 0.3%float.

End Config.

(** ** Python numbers

    [len(audio) < SAMPLE_RATE * MIN_RECORDING_DURATION] multiplies an [int]
    by a [float] (the int is converted, the product is rounded to binary64)
    and then compares an [int] with a [float]; Python makes that last
    comparison on the exact values. *)

Module PyNum.

Definition float_of_int (n : Z) : float :=
  PrimFloat.of_uint63 (Uint63.of_Z n).

Definition int_mul_float (n : Z) (x : float) : float :=
  PrimFloat.mul (float_of_int n) x.

Definition int_lt_float (n : Z) (x : float) : bool :=
  match Prim2SF x with
  | S754_zero _ => n <? 0
  | S754_infinity s => negb s
  | S754_nan => false
  | S754_finite s m e =>
      let v := if s then Z.neg m else Z.pos m in
      if 0 <=? e then n <? v * 2 ^ e else n * 2 ^ (- e) <? v
  end.

Definition float_le_int (x : float) (n : Z) : bool :=
  match Prim2SF x with
  | S754_zero _ => 0 <=? n
  | S754_infinity s => s
  | S754_nan => false
  | S754_finite s m e =>
      let v := if s then Z.neg m else Z.pos m in
      if 0 <=? e then v * 2 ^ e <=? n else v <=? n * 2 ^ (- e)
  end.

End PyNum.

(** ** Python strings

    A [str] is a sequence of code points.  [strip()] without argument
    removes the characters for which [str.isspace] holds from both ends. *)

Module PyStr.

Definition str := list N.

Definition isspace (c : N) : bool :=
  (((9 <=? c) && (c <=? 13)) || ((28 <=? c) && (c <=? 32))
   || (c =? 133) || (c =? 160) || (c =? 5760)
   || ((8192 <=? c) && (c <=? 8202))
   || (c =? 8232) || (c =? 8233) || (c =? 8239) || (c =? 8287)
   || (c =? 12288))%N.

Fixpoint lstrip (s : str) : str :=
  match s with
  | [] => []
  | c :: r => if isspace c then lstrip r else s
  end.

Definition rstrip (s : str) : str := rev (lstrip (rev s)).

Definition strip (s : str) : str := rstrip (lstrip s).

(** Truth value of a [str]: the empty string is false. *)
Definition truthy (s : str) : bool :=
  match s with [] => false | _ :: _ => true end.

End PyStr.

(** ** The daemon, one call at a time

    [SpeakDaemon]'s fields and methods.  A method is a function from the
    daemon's state to a result, the new state and the calls it made to the
    collaborators (sounddevice, the keyboard controller, the console, new
    threads), in order.  Each hot-key handler runs on a thread of its own;
    here a handler runs from its first line to its last without another
    handler in between. *)

Module Daemon.

Definition Sample := float.
Definition Chunk := list Sample.       (* indata: frames x CHANNELS *)
Definition Clip := list Sample.        (* concatenate(...).flatten() *)

Inductive Waveform :=
| Sine (frequency : Z) (duration volume : float)
| Silence (samples : Z)
| Concatenate (parts : list Waveform).

Inductive Message :=
| MsgAudioStatus
| MsgRecording
| MsgStopped
| MsgTooShort
| MsgWaitingForModel
| MsgTranscribing
| MsgResult (text : PyStr.str).

Inductive Target :=
| TranscribeAndType (audio : Clip).

Inductive Effect :=
| Print (m : Message)
| SdPlay (beep : Waveform)
| InputStreamStart (samplerate channels : Z)
| InputStreamStop
| InputStreamClose
| ThreadStart (t : Target)
| ModelLoadedWait
| WhisperTranscribe (audio : Clip)
| Sleep (milliseconds : Z)
| KeyboardType (text : PyStr.str).

Record InputStream := { samplerate : Z; channels : Z }.

Record SpeakDaemon := {
  model_loaded : bool;
  is_recording : bool;
  audio_buffer : list Chunk;
  stream : option InputStream;
  toggle_mode_active : bool;
  push_to_talk_held : bool
}.

Definition set_model_loaded (v : bool) (d : SpeakDaemon) :=
  {| model_loaded := v; is_recording := is_recording d;
     audio_buffer := audio_buffer d; stream := stream d;
     toggle_mode_active := toggle_mode_active d;
     push_to_talk_held := push_to_talk_held d |}.

Definition set_is_recording (v : bool) (d : SpeakDaemon) :=
  {| model_loaded := model_loaded d; is_recording := v;
     audio_buffer := audio_buffer d; stream := stream d;
     toggle_mode_active := toggle_mode_active d;
     push_to_talk_held := push_to_talk_held d |}.

Definition set_audio_buffer (v : list Chunk) (d : SpeakDaemon) :=
  {| model_loaded := model_loaded d; is_recording := is_recording d;
     audio_buffer := v; stream := stream d;
     toggle_mode_active := toggle_mode_active d;
     push_to_talk_held := push_to_talk_held d |}.

Definition set_stream (v : option InputStream) (d : SpeakDaemon) :=
  {| model_loaded := model_loaded d; is_recording := is_recording d;
     audio_buffer := audio_buffer d; stream := v;
     toggle_mode_active := toggle_mode_active d;
     push_to_talk_held := push_to_talk_held d |}.

Definition set_toggle_mode_active (v : bool) (d : SpeakDaemon) :=
  {| model_loaded := model_loaded d; is_recording := is_recording d;
     audio_buffer := audio_buffer d; stream := stream d;
     toggle_mode_active := v;
     push_to_talk_held := push_to_talk_held d |}.

Definition set_push_to_talk_held (v : bool) (d : SpeakDaemon) :=
  {| model_loaded := model_loaded d; is_recording := is_recording d;
     audio_buffer := audio_buffer d; stream := stream d;
     toggle_mode_active := toggle_mode_active d;
     push_to_talk_held := v |}.

(** [SpeakDaemon.__init__], without the loader thread it starts. *)
Definition init : SpeakDaemon :=
  {| model_loaded := false; is_recording := false; audio_buffer := [];
     stream := None; toggle_mode_active := false;
     push_to_talk_held := false |}.

(** *** The monad *)

Definition M (A : Type) : Type := SpeakDaemon -> A * SpeakDaemon * list Effect.

Definition ret {A} (a : A) : M A := fun d => (a, d, []).

Definition bind {A B} (c : M A) (k : A -> M B) : M B :=
  fun d =>
    let '(a, d1, o1) := c d in
    let '(b, d2, o2) := k a d1 in
    (b, d2, o1 ++ o2).

Definition get {A} (field : SpeakDaemon -> A) : M A := fun d => (field d, d, []).

Definition modify (f : SpeakDaemon -> SpeakDaemon) : M unit :=
  fun d => (tt, f d, []).

Definition emit (e : Effect) : M unit := fun d => (tt, d, [e]).

(** [with self.audio_lock:] when no other thread runs. *)
Definition with_audio_lock {A} (body : M A) : M A := body.

Declare Scope daemon_scope.
Delimit Scope daemon_scope with daemon.
Notation "x <- c ;; k" := (bind c (fun x => k))
  (at level 61, c at next level, right associativity) : daemon_scope.
Notation "c ;; k" := (bind c (fun _ => k))
  (at level 61, right associativity) : daemon_scope.
Local Open Scope daemon_scope.

Definition state_of {A} (r : A * SpeakDaemon * list Effect) : SpeakDaemon :=
  snd (fst r).
Definition value_of {A} (r : A * SpeakDaemon * list Effect) : A :=
  fst (fst r).
Definition output_of {A} (r : A * SpeakDaemon * list Effect) : list Effect :=
  snd r.

(** *** Audio feedback

    A beep is kept as its description (frequency, duration, volume); the
    samples and the fades of [generate_beep] are not computed. *)

Definition generate_beep (frequency : Z) (duration volume : float) : Waveform :=
  Sine frequency duration volume.

Definition play_beep (beep_type : string) : M unit :=
  if PyNum.float_le_int Config.BEEP_VOLUME 0 then ret tt
  else if String.eqb beep_type "start" then
    emit (SdPlay (generate_beep 880 Config.BEEP_DURATION Config.BEEP_VOLUME))
  else if String.eqb beep_type "stop" then
    emit (SdPlay (generate_beep 440 Config.BEEP_DURATION Config.BEEP_VOLUME))
  else if String.eqb beep_type "done" then
    let beep1 := generate_beep 660 Config.BEEP_DURATION Config.BEEP_VOLUME in
    let silence := Silence 800 in
    let beep2 := generate_beep 660 Config.BEEP_DURATION Config.BEEP_VOLUME in
    emit (SdPlay (Concatenate [beep1; silence; beep2]))
  else ret tt.

(** *** Recording *)

Definition audio_callback (indata : Chunk) (status : bool) : M unit :=
  (if status then emit (Print MsgAudioStatus) else ret tt) ;;
  rec <- get is_recording ;;
  if rec then
    with_audio_lock
      (buf <- get audio_buffer ;; modify (set_audio_buffer (buf ++ [indata])))
  else ret tt.

Definition start_recording : M unit :=
  rec <- get is_recording ;;
  if rec then ret tt
  else
    with_audio_lock (modify (set_audio_buffer [])) ;;
    modify (set_is_recording true) ;;
    modify (set_stream (Some {| samplerate := Config.SAMPLE_RATE;
                                channels := Config.CHANNELS |})) ;;
    emit (InputStreamStart Config.SAMPLE_RATE Config.CHANNELS) ;;
    play_beep "start" ;;
    emit (Print MsgRecording).

Definition stop_recording : M (option Clip) :=
  rec <- get is_recording ;;
  if negb rec then ret None
  else
    modify (set_is_recording false) ;;
    st <- get stream ;;
    match st with
    | Some _ =>
        emit InputStreamStop ;; emit InputStreamClose ;;
        modify (set_stream None)
    | None => ret tt
    end ;;
    play_beep "stop" ;;
    r <- with_audio_lock
           (buf <- get audio_buffer ;;
            match buf with
            | [] => ret None
            | _ :: _ =>
                modify (set_audio_buffer []) ;;
                ret (Some (List.concat buf))
            end) ;;
    match r with
    | None => ret None
    | Some audio => emit (Print MsgStopped) ;; ret (Some audio)
    end.

(** [len(audio) < SAMPLE_RATE * MIN_RECORDING_DURATION] *)
Definition too_short (audio : Clip) : bool :=
  PyNum.int_lt_float (Z.of_nat (List.length audio))
    (PyNum.int_mul_float Config.SAMPLE_RATE Config.MIN_RECORDING_DURATION).

Definition process_recording : M unit :=
  audio <- stop_recording ;;
  match audio with
  | None => emit (Print MsgTooShort)
  | Some a =>
      if too_short a then emit (Print MsgTooShort)
      else emit (ThreadStart (TranscribeAndType a))
  end.

(** *** Hot-key handlers *)

Definition handle_push_to_talk_down : M unit :=
  tog <- get toggle_mode_active ;;
  held <- get push_to_talk_held ;;
  if negb tog && negb held then
    modify (set_push_to_talk_held true) ;;
    start_recording
  else ret tt.

Definition handle_push_to_talk_up : M unit :=
  held <- get push_to_talk_held ;;
  if held then
    modify (set_push_to_talk_held false) ;;
    rec <- get is_recording ;;
    tog <- get toggle_mode_active ;;
    if rec && negb tog then process_recording else ret tt
  else ret tt.

Definition handle_toggle : M unit :=
  tog <- get toggle_mode_active ;;
  if tog then
    modify (set_toggle_mode_active false) ;;
    process_recording
  else
    modify (set_toggle_mode_active true) ;;
    start_recording.

(** *** The transcription worker

    [whisper] stands for [mlx_whisper.transcribe]; its value is
    [result.get("text")], [None] when the key is missing.  When
    [model_loaded.wait()] returns the event is set. *)

Section Worker.

Variable whisper : Clip -> option PyStr.str.

Definition transcribe (audio : Clip) : M PyStr.str :=
  loaded <- get model_loaded ;;
  (if negb loaded then
     emit (Print MsgWaitingForModel) ;;
     emit ModelLoadedWait ;;
     modify (set_model_loaded true)
   else ret tt) ;;
  emit (Print MsgTranscribing) ;;
  emit (WhisperTranscribe audio) ;;
  let text :=
    PyStr.strip (match whisper audio with Some t => t | None => [] end) in
  emit (Print (MsgResult text)) ;;
  ret text.

Definition type_text (text : PyStr.str) : M unit :=
  if negb (PyStr.truthy text) then ret tt
  else
    play_beep "done" ;;
    emit (Sleep 50) ;;
    emit (KeyboardType text).

Definition transcribe_and_type (audio : Clip) : M unit :=
  text <- transcribe audio ;;
  if PyStr.truthy text then type_text text else ret tt.

End Worker.

(** *** What an output contains *)

Definition is_submission (e : Effect) : bool :=
  match e with ThreadStart (TranscribeAndType _) => true | _ => false end.

Definition submissions (o : list Effect) : list Clip :=
  flat_map (fun e => match e with
                     | ThreadStart (TranscribeAndType a) => [a]
                     | _ => []
                     end) o.

Definition typed (o : list Effect) : list PyStr.str :=
  flat_map (fun e => match e with KeyboardType t => [t] | _ => [] end) o.

Definition is_cue (e : Effect) : bool :=
  match e with SdPlay _ => true | _ => false end.

End Daemon.

(** ** The Quartz event tap

    The values of the Quartz constants are the ones of CoreGraphics'
    [CGEventTypes.h]; an event is what the callback reads from it. *)

Module Quartz.

Definition kCGEventKeyDown : Z := 10.
Definition kCGEventKeyUp : Z := 11.
Definition kCGEventTapDisabledByTimeout : Z := 4294967294.
Definition kCGEventTapDisabledByUserInput : Z := 4294967295.
Definition kCGEventFlagMaskAlternate : Z := 524288.

Record CGEvent := {
  kCGKeyboardEventKeycode : Z;
  CGEventGetFlags : Z;
  kCGKeyboardEventAutorepeat : Z
}.

End Quartz.

Module Router.

Import Quartz.

(** The bound methods given to [threading.Thread(target=...)]. *)
Inductive Handler :=
| HandlePushToTalkDown
| HandlePushToTalkUp
| HandleToggle.

Inductive Action :=
| CGEventTapEnable (enable : bool)
| ThreadStart (target : Handler).

(** The module globals the callback reads: is [_daemon] set, is
    [_event_tap] set. *)
Record Globals := { daemon : bool; event_tap : bool }.

Definition event_tap_callback (g : Globals) (event_type : Z) (event : CGEvent)
  : option CGEvent * list Action :=
  if negb (daemon g) then (Some event, [])
  else if event_type =? kCGEventTapDisabledByTimeout then
    (Some event, if event_tap g then [CGEventTapEnable true] else [])
  else if event_type =? kCGEventTapDisabledByUserInput then
    (Some event, [])
  else if negb ((event_type =? kCGEventKeyDown) || (event_type =? kCGEventKeyUp)) then
    (Some event, [])
  else
    let keycode := kCGKeyboardEventKeycode event in
    let flags := CGEventGetFlags event in
    let option_down := negb (Z.land flags kCGEventFlagMaskAlternate =? 0) in
    if negb option_down then (Some event, [])
    else
      let is_repeat := kCGKeyboardEventAutorepeat event in
      if keycode =? Config.KEYCODE_R then
        (None,
         if (event_type =? kCGEventKeyDown) && (is_repeat =? 0) then
           [ThreadStart HandlePushToTalkDown]
         else if event_type =? kCGEventKeyUp then
           [ThreadStart HandlePushToTalkUp]
         else [])
      else if keycode =? Config.KEYCODE_T then
        (None,
         if (event_type =? kCGEventKeyDown) && (is_repeat =? 0) then
           [ThreadStart HandleToggle]
         else [])
      else (Some event, []).

Definition dispatched (r : option CGEvent * list Action) : list Handler :=
  flat_map (fun a => match a with ThreadStart h => [h] | _ => [] end) (snd r).

Definition reenabled (r : option CGEvent * list Action) : bool :=
  existsb (fun a => match a with CGEventTapEnable true => true | _ => false end)
          (snd r).

(** *** Raw events as the contract names them *)

Definition is_disabled_report (event_type : Z) : bool :=
  (event_type =? kCGEventTapDisabledByTimeout)
  || (event_type =? kCGEventTapDisabledByUserInput).

Definition option_held (event : CGEvent) : bool :=
  negb (Z.land (CGEventGetFlags event) kCGEventFlagMaskAlternate =? 0).

Definition is_chord (event : CGEvent) : bool :=
  option_held event
  && ((kCGKeyboardEventKeycode event =? Config.KEYCODE_R)
      || (kCGKeyboardEventKeycode event =? Config.KEYCODE_T)).

Definition is_repeat_press (event_type : Z) (event : CGEvent) : bool :=
  (event_type =? kCGEventKeyDown)
  && negb (kCGKeyboardEventAutorepeat event =? 0).

(** *** From the tap to the daemon

    The body each started thread runs, and a stream of raw events fed to
    the callback with every started handler run to its end before the
    next event arrives. *)

Definition run_handler (h : Handler) : Daemon.M unit :=
  match h with
  | HandlePushToTalkDown => Daemon.handle_push_to_talk_down
  | HandlePushToTalkUp => Daemon.handle_push_to_talk_up
  | HandleToggle => Daemon.handle_toggle
  end.

Fixpoint run_handlers (hs : list Handler) : Daemon.M unit :=
  match hs with
  | [] => Daemon.ret tt
  | h :: r => Daemon.bind (run_handler h) (fun _ => run_handlers r)
  end.

Definition deliver (g : Globals) (raw : Z * CGEvent) : Daemon.M unit :=
  run_handlers (dispatched (event_tap_callback g (fst raw) (snd raw))).

Fixpoint deliver_all (g : Globals) (raws : list (Z * CGEvent)) : Daemon.M unit :=
  match raws with
  | [] => Daemon.ret tt
  | raw :: r => Daemon.bind (deliver g raw) (fun _ => deliver_all g r)
  end.

End Router.

(** ** The audio callback against [stop_recording]

    sounddevice calls [_audio_callback] on its own thread while a handler
    thread runs [stop_recording].  Each thread is at a program point; a
    move lets one thread run to its next point.  [with self.audio_lock]
    can be entered only when no thread holds the lock.  [delivered] is a
    record kept for the proofs: every chunk handed to the callback, with
    the value [self.is_recording] had when line 248 tested it. *)

Module Race.

Import Daemon.

Inductive Thread := AudioThread | StopThread.

Inductive CallbackPc :=
| CbIdle                       (* outside the callback *)
| CbAtLock (indata : Chunk)    (* [if self.is_recording] was true; before [with] *)
| CbAtAppend (indata : Chunk). (* inside [with], before [append] *)

Inductive StopPc :=
| SpEntry                      (* [if not self.is_recording] *)
| SpFlip                       (* [self.is_recording = False] *)
| SpStream                     (* stream stop and close, stop cue *)
| SpAtLock                     (* before [with self.audio_lock] *)
| SpInLock                     (* inside [with]: test, concatenate, clear *)
| SpReturned (audio : option Clip).

Record State := {
  is_recording : bool;
  audio_buffer : list Chunk;
  audio_lock : option Thread;
  callback : CallbackPc;
  stopper : StopPc;
  delivered : list (Chunk * bool)
}.

Inductive Move :=
| Deliver (indata : Chunk)     (* sounddevice enters the callback *)
| AudioStep                    (* the callback's thread moves on *)
| StopStep.                    (* [stop_recording]'s thread moves on *)

Definition finalize (chunks : list Chunk) : option Clip :=
  match chunks with
  | [] => None
  | _ :: _ => Some (List.concat chunks)
  end.

Definition step (m : Move) (s : State) : option State :=
  match m with
  | Deliver indata =>
      match callback s with
      | CbIdle =>
          Some {| is_recording := is_recording s;
                  audio_buffer := audio_buffer s;
                  audio_lock := audio_lock s;
                  callback := if is_recording s then CbAtLock indata else CbIdle;
                  stopper := stopper s;
                  delivered := delivered s ++ [(indata, is_recording s)] |}
      | _ => None
      end
  | AudioStep =>
      match callback s, audio_lock s with
      | CbAtLock indata, None =>
          Some {| is_recording := is_recording s;
                  audio_buffer := audio_buffer s;
                  audio_lock := Some AudioThread;
                  callback := CbAtAppend indata;
                  stopper := stopper s;
                  delivered := delivered s |}
      | CbAtAppend indata, _ =>
          Some {| is_recording := is_recording s;
                  audio_buffer := audio_buffer s ++ [indata];
                  audio_lock := None;
                  callback := CbIdle;
                  stopper := stopper s;
                  delivered := delivered s |}
      | _, _ => None
      end
  | StopStep =>
      match stopper s with
      | SpEntry =>
          Some {| is_recording := is_recording s;
                  audio_buffer := audio_buffer s;
                  audio_lock := audio_lock s;
                  callback := callback s;
                  stopper := if negb (is_recording s) then SpReturned None else SpFlip;
                  delivered := delivered s |}
      | SpFlip =>
          Some {| is_recording := false;
                  audio_buffer := audio_buffer s;
                  audio_lock := audio_lock s;
                  callback := callback s;
                  stopper := SpStream;
                  delivered := delivered s |}
      | SpStream =>
          Some {| is_recording := is_recording s;
                  audio_buffer := audio_buffer s;
                  audio_lock := audio_lock s;
                  callback := callback s;
                  stopper := SpAtLock;
                  delivered := delivered s |}
      | SpAtLock =>
          match audio_lock s with
          | None =>
              Some {| is_recording := is_recording s;
                      audio_buffer := audio_buffer s;
                      audio_lock := Some StopThread;
                      callback := callback s;
                      stopper := SpInLock;
                      delivered := delivered s |}
          | Some _ => None
          end
      | SpInLock =>
          Some {| is_recording := is_recording s;
                  audio_buffer := [];
                  audio_lock := None;
                  callback := callback s;
                  stopper := SpReturned (finalize (audio_buffer s));
                  delivered := delivered s |}
      | SpReturned _ => None
      end
  end.

Fixpoint run (ms : list Move) (s : State) : option State :=
  match ms with
  | [] => Some s
  | m :: r => match step m s with
              | Some s1 => run r s1
              | None => None
              end
  end.

(** A session as [start_recording] leaves it: flag set, buffer cleared,
    the callback not yet called, [stop_recording] about to be called. *)
Definition session : State :=
  {| is_recording := true; audio_buffer := []; audio_lock := None;
     callback := CbIdle; stopper := SpEntry; delivered := [] |}.

(** The chunks delivered while the flag was set, in order. *)
Definition accepted (s : State) : list Chunk :=
  map fst (filter snd (delivered s)).

(** The chunk the callback has accepted and not appended yet. *)
Definition in_flight (s : State) : list Chunk :=
  match callback s with
  | CbIdle => []
  | CbAtLock x | CbAtAppend x => [x]
  end.

(** A daemon between calls, seen as a state of the two threads. *)
Definition of_daemon (d : SpeakDaemon) : State :=
  {| is_recording := Daemon.is_recording d;
     audio_buffer := Daemon.audio_buffer d;
     audio_lock := None; callback := CbIdle; stopper := SpEntry;
     delivered := [] |}.

(** The moves of one whole call, nothing in between. *)
Definition stop_moves (recording : bool) : list Move :=
  if recording then [StopStep; StopStep; StopStep; StopStep; StopStep]
  else [StopStep].

Definition callback_moves (recording : bool) (indata : Chunk) : list Move :=
  if recording then [Deliver indata; AudioStep; AudioStep]
  else [Deliver indata].

(** Schedules in which the audio library keeps callbacks away from a
    stopped stream: [stream.stop()] returns only when no callback is
    running, and no chunk is delivered after it. *)
Definition stream_stopped (s : State) : bool :=
  match stopper s with
  | SpAtLock | SpInLock | SpReturned _ => true
  | _ => false
  end.

Definition callback_idle (s : State) : bool :=
  match callback s with CbIdle => true | _ => false end.

Definition allowed (m : Move) (s : State) : bool :=
  match m with
  | Deliver _ => negb (stream_stopped s)
  | AudioStep => true
  | StopStep => match stopper s with
                | SpStream => callback_idle s
                | _ => true
                end
  end.

Fixpoint stop_waits (ms : list Move) (s : State) : bool :=
  match ms with
  | [] => true
  | m :: r => match step m s with
              | Some s1 => allowed m s && stop_waits r s1
              | None => true
              end
  end.

(** What holds in every state a schedule reaches from [session]. *)

Definition lock_ok (s : State) : Prop :=
  match audio_lock s with
  | Some AudioThread =>
      (exists x, callback s = CbAtAppend x) /\ stopper s <> SpInLock
  | Some StopThread =>
      stopper s = SpInLock /\ (forall x, callback s <> CbAtAppend x)
  | None =>
      stopper s <> SpInLock /\ (forall x, callback s <> CbAtAppend x)
  end.

Definition flag_ok (s : State) : Prop :=
  is_recording s = match stopper s with
                   | SpEntry | SpFlip => true
                   | _ => false
                   end.

Definition data_ok (s : State) : Prop :=
  match stopper s with
  | SpReturned r =>
      exists kept,
        r = finalize kept
        /\ accepted s = kept ++ audio_buffer s ++ in_flight s
        /\ (List.length (audio_buffer s ++ in_flight s) <= 1)%nat
  | _ => accepted s = audio_buffer s ++ in_flight s
  end.

Definition invariant (s : State) : Prop := lock_ok s /\ flag_ok s /\ data_ok s.

(** What holds in addition along the schedules of [stop_waits]. *)
Definition quiet (s : State) : Prop :=
  stream_stopped s = true ->
  callback s = CbIdle
  /\ match stopper s with SpReturned _ => audio_buffer s = [] | _ => True end.

End Race.

(** ** The model-readiness event

    [self.model_loaded] is a [threading.Event].  [__init__] starts one
    thread on [_load_model], which ends with [set()]; every accepted clip
    starts a thread on [_transcribe_and_type], whose [transcribe] tests
    [is_set()] and calls [wait()] when the event is clear.  [wait()]
    returns only once the event is set.  No line of the program calls
    [clear()]. *)

Module Gate.

Inductive LoaderPc :=
| LdImport                 (* [import mlx_whisper as mw] *)
| LdWarmUp                 (* warm-up [mlx_whisper.transcribe(dummy, ...)] *)
| LdSet                    (* [self.model_loaded.set()] *)
| LdDone.

Inductive WorkerPc :=
| WkEntry                  (* [if not self.model_loaded.is_set()] *)
| WkWait                   (* [self.model_loaded.wait()] *)
| WkInvoke                 (* [mlx_whisper.transcribe(audio, ...)] *)
| WkDone.

Record State := {
  model_loaded : bool;
  loader : LoaderPc;
  workers : list WorkerPc
}.

Inductive Move :=
| LoaderStep
| Spawn                    (* [process_recording] starts a worker *)
| WorkerStep (i : nat).

Fixpoint set_nth {A} (i : nat) (v : A) (l : list A) : list A :=
  match l, i with
  | [], _ => []
  | _ :: r, O => v :: r
  | a :: r, S j => a :: set_nth j v r
  end.

Definition step (m : Move) (s : State) : option State :=
  match m with
  | LoaderStep =>
      match loader s with
      | LdImport => Some {| model_loaded := model_loaded s; loader := LdWarmUp;
                            workers := workers s |}
      | LdWarmUp => Some {| model_loaded := model_loaded s; loader := LdSet;
                            workers := workers s |}
      | LdSet => Some {| model_loaded := true; loader := LdDone;
                         workers := workers s |}
      | LdDone => None
      end
  | Spawn =>
      Some {| model_loaded := model_loaded s; loader := loader s;
              workers := workers s ++ [WkEntry] |}
  | WorkerStep i =>
      match nth_error (workers s) i with
      | Some WkEntry =>
          Some {| model_loaded := model_loaded s; loader := loader s;
                  workers := set_nth i (if negb (model_loaded s) then WkWait
                                        else WkInvoke) (workers s) |}
      | Some WkWait =>
          if model_loaded s then
            Some {| model_loaded := model_loaded s; loader := loader s;
                    workers := set_nth i WkInvoke (workers s) |}
          else None
      | Some WkInvoke =>
          Some {| model_loaded := model_loaded s; loader := loader s;
                  workers := set_nth i WkDone (workers s) |}
      | Some WkDone | None => None
      end
  end.

Fixpoint run (ms : list Move) (s : State) : option State :=
  match ms with
  | [] => Some s
  | m :: r => match step m s with
              | Some s1 => run r s1
              | None => None
              end
  end.

(** The values the flag takes along a schedule, the start included;
    moves that cannot be taken end the schedule. *)
Fixpoint flags (ms : list Move) (s : State) : list bool :=
  model_loaded s ::
  match ms with
  | [] => []
  | m :: r => match step m s with
              | Some s1 => flags r s1
              | None => []
              end
  end.

Fixpoint rises (l : list bool) : nat :=
  match l with
  | false :: ((true :: _) as r) => S (rises r)
  | _ :: r => rises r
  | [] => O
  end.

Fixpoint falls (l : list bool) : nat :=
  match l with
  | true :: ((false :: _) as r) => S (falls r)
  | _ :: r => falls r
  | [] => O
  end.

(** The daemon as [__init__] leaves it. *)
Definition init : State :=
  {| model_loaded := false; loader := LdImport; workers := [] |}.

(** A worker that is about to call the model, or has. *)
Definition past_gate (w : WorkerPc) : bool :=
  match w with WkInvoke | WkDone => true | _ => false end.

(** The loader's remaining moves from a program point. *)
Definition finish_loading (l : LoaderPc) : list Move :=
  match l with
  | LdImport => [LoaderStep; LoaderStep; LoaderStep]
  | LdWarmUp => [LoaderStep; LoaderStep]
  | LdSet => [LoaderStep]
  | LdDone => []
  end.

(** What holds in every state a schedule reaches from [init]. *)
Definition invariant (s : State) : Prop :=
  (model_loaded s = true <-> loader s = LdDone)
  /\ Forall (fun w => past_gate w = true -> model_loaded s = true) (workers s).

End Gate.

(** ** The contract's vocabulary, read off the daemon's fields *)

Module Contract.

Import Daemon.

Inductive Mode := PushToTalk | Toggle.

Inductive RecordingState :=
| Idle
| Recording (mode : Mode).

(** A running capture belongs to the toggle gesture whenever
    [toggle_mode_active] is set, as [_handle_push_to_talk_up] reads it. *)
Definition recording_state (d : SpeakDaemon) : RecordingState :=
  if is_recording d then
    if toggle_mode_active d then Recording Toggle else Recording PushToTalk
  else Idle.

(** A capture the push-to-talk chord began and still holds. *)
Definition push_to_talk_session (d : SpeakDaemon) : Prop :=
  is_recording d = true /\ push_to_talk_held d = true
  /\ toggle_mode_active d = false.

(** Whether a clip of [n] samples lasts less than 300 ms at
    [SAMPLE_RATE] samples a second. *)
Definition below_minimum (n : nat) : Prop :=
  1000 * Z.of_nat n < 300 * Config.SAMPLE_RATE.

(** What [process_recording] hands to the pipeline for a buffer. *)
Definition handed_over (buf : list Chunk) : list Clip :=
  match Race.finalize buf with
  | Some a => if too_short a then [] else [a]
  | None => []
  end.

(** The audio device calls the callback once per chunk, each call
    returning before the next. *)
Fixpoint feed (chunks : list Chunk) : M unit :=
  match chunks with
  | [] => ret tt
  | c :: r => bind (audio_callback c false) (fun _ => feed r)
  end.

Definition whitespace_only (s : PyStr.str) : bool := forallb PyStr.isspace s.

Definition start_cue : Effect :=
  SdPlay (Sine 880 Config.BEEP_DURATION Config.BEEP_VOLUME).

Definition stop_cue : Effect :=
  SdPlay (Sine 440 Config.BEEP_DURATION Config.BEEP_VOLUME).

(** The daemon after "begin capture" and the calls that go with it. *)
Definition started (d : SpeakDaemon) : SpeakDaemon :=
  set_stream (Some {| samplerate := Config.SAMPLE_RATE;
                      channels := Config.CHANNELS |})
    (set_is_recording true (set_audio_buffer [] d)).

Definition start_output : list Effect :=
  [InputStreamStart Config.SAMPLE_RATE Config.CHANNELS; start_cue;
   Print MsgRecording].

(** The daemon after "end capture" and the calls that go with it. *)
Definition stopped (d : SpeakDaemon) : SpeakDaemon :=
  set_audio_buffer [] (set_stream None (set_is_recording false d)).

Definition stop_output (d : SpeakDaemon) : list Effect :=
  match stream d with
  | Some _ => [InputStreamStop; InputStreamClose]
  | None => []
  end ++ [stop_cue] ++
  match audio_buffer d with
  | [] => []
  | _ :: _ => [Print MsgStopped]
  end.

Definition done_cue : Effect :=
  SdPlay (Concatenate [Sine 660 Config.BEEP_DURATION Config.BEEP_VOLUME;
                       Silence 800;
                       Sine 660 Config.BEEP_DURATION Config.BEEP_VOLUME]).

Definition is_push_to_talk (h : Router.Handler) : bool :=
  match h with
  | Router.HandlePushToTalkDown | Router.HandlePushToTalkUp => true
  | Router.HandleToggle => false
  end.

End Contract.

(** ** Sample inputs *)

Module Sample.

Import Daemon.

(** 4800 samples of silence: 300 ms at 16 kHz. *)
Definition chunk_300ms : Chunk := repeat 0%float 4800.

(** 1600 samples: a 100 ms tap. *)
Definition chunk_100ms : Chunk := repeat 0%float 1600.

Definition one : Chunk := [1%float].
Definition two : Chunk := [2%float].

(** Option+R held, a chunk recorded. *)
Definition held_recording (c : Chunk) : SpeakDaemon :=
  state_of (audio_callback c false (state_of (handle_push_to_talk_down init))).

(** Option+T pressed once, a chunk recorded. *)
Definition toggled_recording (c : Chunk) : SpeakDaemon :=
  state_of (audio_callback c false (state_of (handle_toggle init))).

(** The callback passes line 248 with the flag set and is overtaken by
    the whole of [stop_recording] before it appends. *)
Definition overtaken : list Race.Move :=
  [Race.Deliver one; Race.StopStep; Race.StopStep; Race.StopStep;
   Race.StopStep; Race.StopStep; Race.AudioStep; Race.AudioStep].

(** The same after a first chunk went through undisturbed. *)
Definition overtaken_second : list Race.Move :=
  [Race.Deliver one; Race.AudioStep; Race.AudioStep;
   Race.Deliver two; Race.StopStep; Race.StopStep; Race.StopStep;
   Race.StopStep; Race.StopStep; Race.AudioStep; Race.AudioStep].

(** A clip is accepted before the model is loaded: its worker tests the
    event, waits, and goes on once the loader has set it. *)
Definition early_worker : list Gate.Move :=
  [Gate.Spawn; Gate.WorkerStep 0; Gate.LoaderStep; Gate.LoaderStep;
   Gate.LoaderStep; Gate.WorkerStep 0; Gate.WorkerStep 0].

Definition installed : Router.Globals :=
  {| Router.daemon := true; Router.event_tap := true |}.

Definition key (code repeat : Z) : Quartz.CGEvent :=
  {| Quartz.kCGKeyboardEventKeycode := code;
     Quartz.CGEventGetFlags := Quartz.kCGEventFlagMaskAlternate;
     Quartz.kCGKeyboardEventAutorepeat := repeat |}.

(** "hello world" and " \n" as code points. *)
Definition hello_world : PyStr.str :=
  [104; 101; 108; 108; 111; 32; 119; 111; 114; 108; 100]%N.
Definition blank : PyStr.str := [32; 10]%N.

End Sample.

(** ** Installing and removing the event tap

    [start_event_tap] and [stop_event_tap] over the module globals
    [_event_tap] and [_run_loop_source].  Whether [CGEventTapCreate] and
    [CFMachPortCreateRunLoopSource] return an object is given from
    outside. *)

Module Tap.

Inductive Line :=
| LineCreateFailed
| LinePermissionHint
| LineSettingsPath
| LineCreated.

Inductive Effect :=
| CGEventTapCreate
| CFMachPortCreateRunLoopSource
| CFRunLoopAddSource
| CGEventTapEnable (enable : bool)
| CFRunLoopRemoveSource
| Print (line : Line).

Record Globals := { event_tap : bool; run_loop_source : bool }.

Definition unset : Globals := {| event_tap := false; run_loop_source := false |}.

Definition start_event_tap (tap source : bool) (g : Globals)
  : bool * Globals * list Effect :=
  let g1 := {| event_tap := tap; run_loop_source := run_loop_source g |} in
  if negb tap then
    (false, g1,
     [CGEventTapCreate; Print LineCreateFailed; Print LinePermissionHint;
      Print LineSettingsPath])
  else
    (true, {| event_tap := tap; run_loop_source := source |},
     [CGEventTapCreate; CFMachPortCreateRunLoopSource; CFRunLoopAddSource;
      CGEventTapEnable true; Print LineCreated]).

Definition stop_event_tap (g : Globals) : unit * Globals * list Effect :=
  let o1 := if event_tap g then [CGEventTapEnable false] else [] in
  let o2 := if run_loop_source g then [CFRunLoopRemoveSource] else [] in
  (tt, unset, o1 ++ o2).

(** The globals as the callback of the tap reads them. *)
Definition router_globals (daemon : bool) (g : Globals) : Router.Globals :=
  {| Router.daemon := daemon; Router.event_tap := event_tap g |}.

(** Taps enabled minus taps disabled, as an output leaves them. *)
Fixpoint enabled_after (o : list Effect) (enabled : bool) : bool :=
  match o with
  | [] => enabled
  | CGEventTapEnable b :: r => enabled_after r b
  | _ :: r => enabled_after r enabled
  end.

Fixpoint source_after (o : list Effect) (installed : bool) : bool :=
  match o with
  | [] => installed
  | CFRunLoopAddSource :: r => source_after r true
  | CFRunLoopRemoveSource :: r => source_after r false
  | _ :: r => source_after r installed
  end.

End Tap.

(** ** [SpeakDaemon.run]

    The main entry point.  How [AppHelper.runConsoleEventLoop()] ends is
    given from outside: it returns, it is interrupted from the keyboard,
    or it raises another exception, which [run] lets through after its
    [finally] block. *)

Module Main.

Inductive Line :=
| LineRule
| LineTitle
| LineBlank
| LineHotkeys
| LinePushToTalk
| LineToggle
| LineQuitHint
| LineSettingUp
| LineSetupFailed
| LineLoadingModel
| LineReady
| LineGoodbye.

Inductive Effect :=
| Print (line : Line)
| TapCall (e : Tap.Effect)
| ModelLoadedWait
| RunConsoleEventLoop.

Inductive LoopEnd := LoopReturns | LoopKeyboardInterrupt | LoopRaises.

Inductive Outcome := Returned | Raised.

Definition banner : list Effect :=
  [Print LineRule; Print LineTitle; Print LineRule; Print LineBlank;
   Print LineHotkeys; Print LinePushToTalk; Print LineToggle; Print LineBlank;
   Print LineQuitHint; Print LineBlank].

Definition run (tap source model_loaded : bool) (loop : LoopEnd) (g : Tap.Globals)
  : Outcome * Tap.Globals * list Effect :=
  let '(ok, g1, o1) := Tap.start_event_tap tap source g in
  let setup := banner ++ [Print LineSettingUp] ++ map TapCall o1 in
  if negb ok then (Returned, g1, setup ++ [Print LineSetupFailed])
  else
    let waiting :=
      if negb model_loaded then [Print LineLoadingModel; ModelLoadedWait]
      else [] in
    let '(_, g2, o2) := Tap.stop_event_tap g1 in
    (match loop with LoopRaises => Raised | _ => Returned end,
     g2,
     setup ++ [Print LineBlank] ++ waiting
     ++ [Print LineReady; Print LineBlank; RunConsoleEventLoop]
     ++ map TapCall o2 ++ [Print LineGoodbye]).

Definition tap_calls (o : list Effect) : list Tap.Effect :=
  flat_map (fun e => match e with TapCall t => [t] | _ => [] end) o.

Definition entered_loop (o : list Effect) : bool :=
  existsb (fun e => match e with RunConsoleEventLoop => true | _ => false end) o.

Definition waited (o : list Effect) : bool :=
  existsb (fun e => match e with ModelLoadedWait => true | _ => false end) o.

End Main.

(** ** The daemon under a stream of calls

    Key events come in through the tap, chunks through the audio
    callback; each call ends before the next begins. *)

Module Driver.

Import Daemon.

Inductive Call :=
| Key (event_type : Z) (event : Quartz.CGEvent)
| Handle (h : Router.Handler)
| Audio (indata : Chunk) (status : bool).

Definition call (g : Router.Globals) (c : Call) : M unit :=
  match c with
  | Key event_type event => Router.deliver g (event_type, event)
  | Handle h => Router.run_handler h
  | Audio indata status => audio_callback indata status
  end.

Fixpoint calls (g : Router.Globals) (cs : list Call) : M unit :=
  match cs with
  | [] => ret tt
  | c :: r => bind (call g c) (fun _ => calls g r)
  end.

Definition count (p : Effect -> bool) (o : list Effect) : nat :=
  List.length (filter p o).

Definition is_stream_start (e : Effect) : bool :=
  match e with InputStreamStart _ _ => true | _ => false end.

Definition is_stream_stop (e : Effect) : bool :=
  match e with InputStreamStop => true | _ => false end.

Definition is_stream_close (e : Effect) : bool :=
  match e with InputStreamClose => true | _ => false end.

(** How the four recording fields hang together. *)
Definition consistent (d : SpeakDaemon) : bool :=
  Bool.eqb (is_recording d) (match stream d with Some _ => true | None => false end)
  && implb (toggle_mode_active d) (is_recording d)
  && implb (is_recording d) (toggle_mode_active d || push_to_talk_held d)
  && (is_recording d || match audio_buffer d with [] => true | _ :: _ => false end).

(** Streams opened and streams stopped over a run that starts in
    [before]: one more opened exactly when the run ends recording and did
    not begin so; every stopped stream is closed. *)
Definition balanced (before : SpeakDaemon) (r : unit * SpeakDaemon * list Effect) : Prop :=
  (count is_stream_start (output_of r) + (if is_recording before then 1 else 0)
   = count is_stream_stop (output_of r)
     + (if is_recording (state_of r) then 1 else 0))%nat
  /\ count is_stream_close (output_of r) = count is_stream_stop (output_of r).

(** A daemon at rest: nothing recorded, no chord active. *)
Definition at_rest (d : SpeakDaemon) : bool :=
  negb (is_recording d) && negb (toggle_mode_active d)
  && negb (push_to_talk_held d).

(** One push-to-talk gesture with chunks arriving while the key is down. *)
Definition push_to_talk_gesture (chunks : list Chunk) : M unit :=
  bind handle_push_to_talk_down (fun _ =>
  bind (Contract.feed chunks) (fun _ => handle_push_to_talk_up)).

(** One toggle gesture: a press, chunks, a second press. *)
Definition toggle_gesture (chunks : list Chunk) : M unit :=
  bind handle_toggle (fun _ =>
  bind (Contract.feed chunks) (fun _ => handle_toggle)).

(** What happens between two moments of rest: a push-to-talk gesture,
    a toggle gesture, or chunks that arrive while nothing is recorded. *)
Inductive Gesture :=
| PushToTalkGesture (chunks : list Chunk)
| ToggleGesture (chunks : list Chunk)
| StrayChunks (chunks : list Chunk).

Definition gesture (x : Gesture) : M unit :=
  match x with
  | PushToTalkGesture chunks => push_to_talk_gesture chunks
  | ToggleGesture chunks => toggle_gesture chunks
  | StrayChunks chunks => Contract.feed chunks
  end.

Fixpoint gestures (xs : list Gesture) : M unit :=
  match xs with
  | [] => ret tt
  | x :: r => bind (gesture x) (fun _ => gestures r)
  end.

(** The clips a sequence of gestures is due to hand over. *)
Definition clips_due (xs : list Gesture) : list Clip :=
  flat_map (fun x => match x with
                     | PushToTalkGesture chunks | ToggleGesture chunks =>
                         Contract.handed_over chunks
                     | StrayChunks _ => []
                     end) xs.

End Driver.

(** ** Text without white space at its ends *)

Module Trim.

Definition starts_clean (s : PyStr.str) : bool :=
  match s with
  | [] => true
  | c :: _ => negb (PyStr.isspace c)
  end.

Definition ends_clean (s : PyStr.str) : bool := starts_clean (rev s).

Definition transcribed (o : list Daemon.Effect) : list Daemon.Clip :=
  flat_map (fun e => match e with
                     | Daemon.WhisperTranscribe a => [a]
                     | _ => []
                     end) o.

Definition waited (o : list Daemon.Effect) : bool :=
  existsb (fun e => match e with Daemon.ModelLoadedWait => true | _ => false end) o.

End Trim.

(** ** Schedules that bring a thread to its end *)

Module Progress.

Definition finish_stop (sp : Race.StopPc) : list Race.Move :=
  match sp with
  | Race.SpEntry => repeat Race.StopStep 5
  | Race.SpFlip => repeat Race.StopStep 4
  | Race.SpStream => repeat Race.StopStep 3
  | Race.SpAtLock => repeat Race.StopStep 2
  | Race.SpInLock => repeat Race.StopStep 1
  | Race.SpReturned _ => []
  end.

(** Let the callback leave the lock if it holds it, then let
    [stop_recording] run to its return. *)
Definition let_stop_return (s : Race.State) : list Race.Move :=
  match Race.audio_lock s with
  | Some Race.AudioThread => [Race.AudioStep]
  | _ => []
  end ++ finish_stop (Race.stopper s).

(** The same, and the callback to its end after that. *)
Definition let_both_finish (s : Race.State) : list Race.Move :=
  let_stop_return s
  ++ match Race.callback s with
     | Race.CbAtLock _ => [Race.AudioStep; Race.AudioStep]
     | _ => []
     end.

Definition finish_worker (i : nat) (w : Gate.WorkerPc) : list Gate.Move :=
  match w with
  | Gate.WkEntry | Gate.WkWait => [Gate.WorkerStep i; Gate.WorkerStep i]
  | Gate.WkInvoke => [Gate.WorkerStep i]
  | Gate.WkDone => []
  end.

(** Let the loader finish, then worker [i]. *)
Definition let_worker_finish (i : nat) (s : Gate.State) : list Gate.Move :=
  Gate.finish_loading (Gate.loader s)
  ++ match nth_error (Gate.workers s) i with
     | Some w => finish_worker i w
     | None => []
     end.

End Progress.

(** * Properties *)

(** ** Numbers and strings *)

Section PyFacts.

Import PyNum PyStr.

(** The float product [16000 * 0.3] is exactly 4800, so the test of
    [process_recording] is [len(audio) < 4800]. *)
Lemma too_short_spec (a : Daemon.Clip) :
  Daemon.too_short a = (Z.of_nat (List.length a) <? 4800).
Proof.
  unfold Daemon.too_short.
  generalize (Z.of_nat (List.length a)); intro n.
  change (int_lt_float n (int_mul_float Config.SAMPLE_RATE Config.MIN_RECORDING_DURATION))
    with (n * 1099511627776 <? 5277655813324800).
  destruct (Z.ltb_spec n 4800);
    destruct (Z.ltb_spec (n * 1099511627776) 5277655813324800);
    try reflexivity; exfalso; lia.
Qed.

Lemma too_short_below (a : Daemon.Clip) :
  Daemon.too_short a = true <-> Contract.below_minimum (List.length a).
Proof.
  rewrite too_short_spec. unfold Contract.below_minimum, Config.SAMPLE_RATE.
  rewrite Z.ltb_lt. lia.
Qed.

Lemma lstrip_nil_iff (s : str) : lstrip s = [] <-> forallb isspace s = true.
Proof.
  induction s as [|c r IH]; simpl.
  - tauto.
  - destruct (isspace c); simpl; [exact IH | split; discriminate].
Qed.

Lemma lstrip_suffix (s : str) : exists p, s = p ++ lstrip s /\ forallb isspace p = true.
Proof.
  induction s as [|c r [p [Hp Hs]]]; simpl.
  - exists []. split; reflexivity.
  - destruct (isspace c) eqn:E.
    + exists (c :: p). simpl. rewrite E, Hs. split; [congruence | reflexivity].
    + exists []. split; reflexivity.
Qed.

Lemma forallb_rev {A} (f : A -> bool) (l : list A) :
  forallb f (rev l) = forallb f l.
Proof.
  induction l as [|a r IH]; simpl; [reflexivity|].
  rewrite forallb_app, IH. simpl. rewrite andb_true_r. apply andb_comm.
Qed.

Lemma rstrip_nil_iff (s : str) : rstrip s = [] <-> forallb isspace s = true.
Proof.
  unfold rstrip. rewrite <- (forallb_rev isspace s), <- lstrip_nil_iff.
  split; intro H.
  - apply (f_equal (@rev N)) in H. rewrite rev_involutive in H. exact H.
  - rewrite H. reflexivity.
Qed.

(** [strip] leaves nothing exactly when every character is white space. *)
Lemma strip_nil_iff (s : str) : strip s = [] <-> forallb isspace s = true.
Proof.
  unfold strip. rewrite rstrip_nil_iff.
  destruct (lstrip_suffix s) as [p [Hp Hs]].
  split; intro H.
  - rewrite Hp, forallb_app, Hs, H. reflexivity.
  - rewrite Hp, forallb_app in H. apply andb_prop in H. tauto.
Qed.

Lemma truthy_strip (s : str) :
  truthy (strip s) = negb (Contract.whitespace_only s).
Proof.
  unfold Contract.whitespace_only.
  destruct (strip s) eqn:E; simpl.
  - apply strip_nil_iff in E. rewrite E. reflexivity.
  - destruct (forallb isspace s) eqn:F; [|reflexivity].
    apply strip_nil_iff in F. congruence.
Qed.

End PyFacts.

(** ** The daemon's methods in closed form *)

Section DaemonFacts.

Import Daemon Contract.

Lemma start_recording_spec (d : SpeakDaemon) :
  start_recording d =
  if is_recording d then (tt, d, []) else (tt, started d, start_output).
Proof.
  unfold start_recording, bind, get. destruct (is_recording d); reflexivity.
Qed.

Lemma stop_recording_spec (d : SpeakDaemon) :
  stop_recording d =
  if is_recording d
  then (Race.finalize (audio_buffer d), stopped d, stop_output d)
  else (None, d, []).
Proof.
  destruct d as [ml rec buf st tog held].
  destruct rec; [|reflexivity].
  destruct st, buf; reflexivity.
Qed.

Lemma process_recording_spec (d : SpeakDaemon) :
  process_recording d =
  if is_recording d
  then (tt, stopped d,
        stop_output d ++
        match handed_over (audio_buffer d) with
        | [] => [Print MsgTooShort]
        | a :: _ => [ThreadStart (TranscribeAndType a)]
        end)
  else (tt, d, [Print MsgTooShort]).
Proof.
  unfold process_recording, bind. rewrite stop_recording_spec.
  destruct (is_recording d); [|reflexivity].
  unfold handed_over.
  destruct (Race.finalize (audio_buffer d)) as [a|]; [|reflexivity].
  destruct (too_short a); reflexivity.
Qed.

Lemma submissions_app (o1 o2 : list Effect) :
  submissions (o1 ++ o2) = submissions o1 ++ submissions o2.
Proof. unfold submissions. apply flat_map_app. Qed.

Lemma submissions_stop_output (d : SpeakDaemon) : submissions (stop_output d) = [].
Proof. unfold stop_output. destruct (stream d), (audio_buffer d); reflexivity. Qed.

Lemma handed_over_cases (buf : list Chunk) :
  handed_over buf = [] \/ exists a, handed_over buf = [a].
Proof.
  unfold handed_over. destruct (Race.finalize buf) as [a|]; [|now left].
  destruct (too_short a); [now left | right; now exists a].
Qed.

Lemma submissions_process_recording (d : SpeakDaemon) :
  submissions (output_of (process_recording d)) =
  if is_recording d then handed_over (audio_buffer d) else [].
Proof.
  rewrite process_recording_spec. destruct (is_recording d); [|reflexivity].
  unfold output_of; simpl snd. rewrite submissions_app, submissions_stop_output.
  destruct (handed_over_cases (audio_buffer d)) as [E|[a E]]; rewrite E; reflexivity.
Qed.

End DaemonFacts.

(** ** Post-capture filtering *)

Section Filtering.

Import Daemon Contract.

(** C5.  Whenever [stop_recording] yields no clip (nothing was recorded)
    or a clip that lasts less than 300 ms at 16 kHz (the empty clip
    included), [process_recording] discards it: it starts no
    transcription thread, leaves the daemon as [stop_recording] left it
    and only reports the recording as too short. *)
Theorem short_clip_never_submitted (d : SpeakDaemon) :
  match value_of (stop_recording d) with
  | None => True
  | Some a => below_minimum (List.length a)
  end ->
  submissions (output_of (process_recording d)) = []
  /\ existsb is_submission (output_of (process_recording d)) = false
  /\ state_of (process_recording d) = state_of (stop_recording d)
  /\ output_of (process_recording d)
     = output_of (stop_recording d) ++ [Print MsgTooShort].
Proof.
  intro H.
  assert (E : process_recording d =
              (tt, state_of (stop_recording d),
               output_of (stop_recording d) ++ [Print MsgTooShort])).
  { unfold process_recording, bind.
    destruct (stop_recording d) as [[[a|] d1] o1]; unfold value_of in H;
      simpl in H; [|reflexivity].
    apply too_short_below in H. rewrite H. reflexivity. }
  assert (S : submissions (output_of (stop_recording d)) = []).
  { rewrite stop_recording_spec. destruct (is_recording d); [|reflexivity].
    apply submissions_stop_output. }
  assert (X : existsb is_submission (output_of (stop_recording d)) = false).
  { rewrite stop_recording_spec. destruct (is_recording d); [|reflexivity].
    unfold output_of, stop_output; simpl snd.
    destruct (stream d), (audio_buffer d); reflexivity. }
  revert E S X.
  generalize (output_of (stop_recording d)) (state_of (stop_recording d)).
  intros o st E S X. rewrite E. unfold output_of, state_of. simpl.
  repeat split.
  - rewrite submissions_app, S. reflexivity.
  - rewrite existsb_app, X. reflexivity.
Qed.

(** A 100 ms push-to-talk tap at 16 kHz yields no submission. *)
Lemma short_clip_never_submitted_witness :
  submissions
    (output_of (process_recording (Sample.held_recording Sample.chunk_100ms)))
  = [].
Proof.
  apply (short_clip_never_submitted (Sample.held_recording Sample.chunk_100ms)).
  vm_compute. reflexivity.
Defined.

(** C10.  The filter compares the sample count strictly: a clip that
    [stop_recording] returns is handed to a transcription thread exactly
    when it has at least 4800 samples (300 ms at 16 kHz), the clip of
    exactly 4800 samples included, and is dropped exactly when it has
    fewer. *)
Theorem boundary_clip_is_submitted (d : SpeakDaemon) (a : Clip) :
  value_of (stop_recording d) = Some a ->
  (4800 <= Z.of_nat (List.length a) ->
   submissions (output_of (process_recording d)) = [a])
  /\ (Z.of_nat (List.length a) < 4800 ->
      submissions (output_of (process_recording d)) = [])
  /\ 1000 * 4800 = 300 * Config.SAMPLE_RATE.
Proof.
  intro H.
  assert (R : is_recording d = true /\ Race.finalize (audio_buffer d) = Some a).
  { rewrite stop_recording_spec in H. destruct (is_recording d); [|discriminate].
    split; [reflexivity | exact H]. }
  destruct R as [R F].
  rewrite submissions_process_recording, R. unfold handed_over. rewrite F.
  rewrite too_short_spec.
  repeat split.
  - intro L. apply Z.ltb_ge in L. rewrite L. reflexivity.
  - intro L. apply Z.ltb_lt in L. rewrite L. reflexivity.
Qed.

(** A clip of exactly 4800 samples is submitted. *)
Lemma boundary_clip_is_submitted_witness :
  submissions
    (output_of (process_recording (Sample.held_recording Sample.chunk_300ms)))
  = [Sample.chunk_300ms].
Proof.
  refine (proj1 (boundary_clip_is_submitted
                   (Sample.held_recording Sample.chunk_300ms)
                   Sample.chunk_300ms _) _).
  - vm_compute. reflexivity.
  - vm_compute. discriminate.
Defined.

End Filtering.

(** ** The recording state machine *)

Section StateMachine.

Import Daemon Contract.

Lemma handle_toggle_spec (d : SpeakDaemon) :
  handle_toggle d =
  if toggle_mode_active d
  then process_recording (set_toggle_mode_active false d)
  else start_recording (set_toggle_mode_active true d).
Proof.
  unfold handle_toggle, bind, get, modify.
  destruct (toggle_mode_active d).
  - destruct (process_recording _) as [[u d1] o1]. reflexivity.
  - destruct (start_recording _) as [[u d1] o1]. reflexivity.
Qed.

Lemma handle_push_to_talk_up_spec (d : SpeakDaemon) :
  handle_push_to_talk_up d =
  if push_to_talk_held d then
    if is_recording d && negb (toggle_mode_active d)
    then process_recording (set_push_to_talk_held false d)
    else (tt, set_push_to_talk_held false d, [])
  else (tt, d, []).
Proof.
  unfold handle_push_to_talk_up, bind, get, modify.
  destruct (push_to_talk_held d); [|reflexivity]. simpl.
  destruct (is_recording d), (toggle_mode_active d); simpl; try reflexivity.
  destruct (process_recording _) as [[u d1] o1]. reflexivity.
Qed.

Lemma handle_push_to_talk_down_spec (d : SpeakDaemon) :
  handle_push_to_talk_down d =
  if negb (toggle_mode_active d) && negb (push_to_talk_held d)
  then start_recording (set_push_to_talk_held true d)
  else (tt, d, []).
Proof.
  unfold handle_push_to_talk_down, bind, get, modify.
  destruct (toggle_mode_active d), (push_to_talk_held d); simpl; try reflexivity.
  destruct (start_recording _) as [[u d1] o1]. reflexivity.
Qed.

(** The frame of a push-to-talk handler while the toggle gesture owns the
    capture: nothing but [push_to_talk_held] can change. *)
Lemma push_to_talk_frame (h : Router.Handler) (d : SpeakDaemon) :
  is_push_to_talk h = true ->
  toggle_mode_active d = true ->
  output_of (Router.run_handler h d) = []
  /\ is_recording (state_of (Router.run_handler h d)) = is_recording d
  /\ toggle_mode_active (state_of (Router.run_handler h d)) = true
  /\ audio_buffer (state_of (Router.run_handler h d)) = audio_buffer d
  /\ stream (state_of (Router.run_handler h d)) = stream d
  /\ model_loaded (state_of (Router.run_handler h d)) = model_loaded d.
Proof.
  intros Hh Ht. destruct h; try discriminate; simpl.
  - rewrite handle_push_to_talk_down_spec, Ht. simpl. repeat split; assumption.
  - rewrite handle_push_to_talk_up_spec, Ht, andb_false_r.
    destruct (push_to_talk_held d); simpl; repeat split; assumption.
Qed.

Lemma audio_callback_spec (c : Chunk) (status : bool) (d : SpeakDaemon) :
  audio_callback c status d =
  (tt,
   if is_recording d then set_audio_buffer (audio_buffer d ++ [c]) d else d,
   if status then [Print MsgAudioStatus] else []).
Proof.
  destruct d as [ml rec buf st tog held].
  destruct status, rec; reflexivity.
Qed.

Lemma feed_recording (cs : list Chunk) (d : SpeakDaemon) :
  is_recording d = true ->
  feed cs d = (tt, set_audio_buffer (audio_buffer d ++ cs) d, []).
Proof.
  revert d. induction cs as [|c r IH]; intros d H.
  - destruct d. simpl. unfold ret, set_audio_buffer. simpl.
    rewrite app_nil_r. reflexivity.
  - simpl. unfold bind. rewrite audio_callback_spec, H.
    rewrite IH by exact H. simpl.
    unfold set_audio_buffer. simpl. rewrite <- app_assoc. reflexivity.
Qed.

(** X19.  One session with no call overlapping another, begun on a
    daemon that is not recording, whatever was left in its buffer: the
    clip is the concatenation of every chunk delivered between begin
    and end, and of nothing else. *)
Lemma sequential_session_clip (cs : list Chunk) (d : SpeakDaemon) :
  is_recording d = false ->
  value_of (stop_recording (state_of (feed cs (state_of (start_recording d)))))
  = Race.finalize cs.
Proof.
  intro H. rewrite start_recording_spec, H.
  change (state_of (tt, started d, start_output)) with (started d).
  rewrite feed_recording by reflexivity.
  rewrite stop_recording_spec. reflexivity.
Qed.

(** C1, as stated, fails.  Option+R is held and 300 ms are recorded; a
    press of Option+T then marks the capture as a toggle session, and the
    release of Option+R that follows neither ends the capture nor hands
    the clip over. *)
Lemma toggle_press_takes_over_push_to_talk :
  let d := Sample.held_recording Sample.chunk_300ms in
  let d1 := state_of (handle_toggle d) in
  let r2 := handle_push_to_talk_up d1 in
  push_to_talk_session d
  /\ recording_state d = Recording PushToTalk
  /\ recording_state d1 <> Recording PushToTalk
  /\ is_recording (state_of r2) = true
  /\ submissions (output_of r2) = [].
Proof.
  vm_compute. repeat split; discriminate.
Qed.

(** C1, amended.  In a push-to-talk session a press of the toggle chord
    starts no new capture, finalizes nothing and leaves flag, buffer and
    stream as they are, but sets [toggle_mode_active]: the session now
    belongs to the toggle gesture.  The release of the push-to-talk chord
    that follows only clears [push_to_talk_held]; the next press of the
    toggle chord ends the capture and hands the clip over (when it is
    long enough). *)
Theorem toggle_press_during_push_to_talk (d : SpeakDaemon) :
  push_to_talk_session d ->
  let r1 := handle_toggle d in
  let r2 := handle_push_to_talk_up (state_of r1) in
  let r3 := handle_toggle (state_of r2) in
  state_of r1 = set_toggle_mode_active true d
  /\ output_of r1 = []
  /\ recording_state (state_of r1) = Recording Toggle
  /\ state_of r2 = set_push_to_talk_held false (state_of r1)
  /\ output_of r2 = []
  /\ recording_state (state_of r3) = Idle
  /\ toggle_mode_active (state_of r3) = false
  /\ submissions (output_of r3) = handed_over (audio_buffer d).
Proof.
  intros [Hr [Hh Ht]].
  destruct d as [ml rec buf st tog held]; simpl in Hr, Hh, Ht; subst.
  set (d := {| model_loaded := ml; is_recording := true; audio_buffer := buf;
               stream := st; toggle_mode_active := false;
               push_to_talk_held := true |}).
  assert (E1 : handle_toggle d = (tt, set_toggle_mode_active true d, [])).
  { rewrite handle_toggle_spec, start_recording_spec. reflexivity. }
  assert (E2 : handle_push_to_talk_up (set_toggle_mode_active true d)
               = (tt, set_push_to_talk_held false (set_toggle_mode_active true d), [])).
  { rewrite handle_push_to_talk_up_spec. reflexivity. }
  assert (E3 : handle_toggle
                 (set_push_to_talk_held false (set_toggle_mode_active true d))
               = process_recording (set_push_to_talk_held false d)).
  { rewrite handle_toggle_spec. reflexivity. }
  cbv zeta. rewrite E1.
  change (state_of (tt, set_toggle_mode_active true d, []))
    with (set_toggle_mode_active true d).
  rewrite E2.
  change (state_of (tt, set_push_to_talk_held false
                          (set_toggle_mode_active true d), []))
    with (set_push_to_talk_held false (set_toggle_mode_active true d)).
  rewrite E3, submissions_process_recording, process_recording_spec.
  repeat split.
Qed.

Lemma toggle_press_during_push_to_talk_witness :
  submissions
    (output_of
       (handle_toggle
          (state_of
             (handle_push_to_talk_up
                (state_of
                   (handle_toggle (Sample.held_recording Sample.chunk_300ms)))))))
  = handed_over (audio_buffer (Sample.held_recording Sample.chunk_300ms)).
Proof.
  apply (toggle_press_during_push_to_talk
           (Sample.held_recording Sample.chunk_300ms)).
  vm_compute. repeat split.
Defined.

(** C7.  While the state is Recording(Toggle), any sequence of
    push-to-talk presses and releases leaves the recording state, the
    audio buffer and the stream unchanged and produces no output at all:
    no capture is begun or ended, no clip finalized, none submitted. *)
Theorem push_to_talk_ignored_during_toggle
  (hs : list Router.Handler) (d : SpeakDaemon) :
  recording_state d = Recording Toggle ->
  forallb is_push_to_talk hs = true ->
  recording_state (state_of (Router.run_handlers hs d)) = Recording Toggle
  /\ audio_buffer (state_of (Router.run_handlers hs d)) = audio_buffer d
  /\ stream (state_of (Router.run_handlers hs d)) = stream d
  /\ output_of (Router.run_handlers hs d) = []
  /\ submissions (output_of (Router.run_handlers hs d)) = [].
Proof.
  revert d. induction hs as [|h r IH]; intros d Hs Hp.
  - simpl. repeat split; assumption.
  - simpl in Hp. apply andb_prop in Hp. destruct Hp as [Hh Hr].
    assert (Ht : toggle_mode_active d = true /\ is_recording d = true).
    { unfold recording_state in Hs.
      destruct (is_recording d), (toggle_mode_active d);
        try discriminate; split; reflexivity. }
    destruct Ht as [Ht Hrec].
    destruct (push_to_talk_frame h d Hh Ht) as [Ho [H1 [H2 [H3 [H4 H5]]]]].
    simpl Router.run_handlers. unfold bind.
    destruct (Router.run_handler h d) as [[u d1] o1].
    unfold state_of, output_of in Ho, H1, H2, H3, H4; simpl in Ho, H1, H2, H3, H4.
    assert (Hs1 : recording_state d1 = Recording Toggle).
    { unfold recording_state. rewrite H1, Hrec, H2. reflexivity. }
    destruct (IH d1 Hs1 Hr) as [I1 [I2 [I3 [I4 I5]]]].
    destruct (Router.run_handlers r d1) as [[u2 d2] o2].
    unfold state_of, output_of in *; simpl in *.
    subst o1 o2. repeat split; try congruence.
Qed.

Lemma push_to_talk_ignored_during_toggle_witness :
  output_of
    (Router.run_handlers
       [Router.HandlePushToTalkDown; Router.HandlePushToTalkUp;
        Router.HandlePushToTalkUp; Router.HandlePushToTalkDown]
       (Sample.toggled_recording Sample.chunk_300ms)) = [].
Proof.
  apply (push_to_talk_ignored_during_toggle
           [Router.HandlePushToTalkDown; Router.HandlePushToTalkUp;
            Router.HandlePushToTalkUp; Router.HandlePushToTalkDown]
           (Sample.toggled_recording Sample.chunk_300ms)).
  - vm_compute. reflexivity.
  - reflexivity.
Defined.

End StateMachine.

(** ** The hot-key router *)

Section RouterFacts.

Import Quartz Router.

(** C4, as stated, fails.  With the daemon and the tap installed, the
    report that the tap was disabled by user input is returned as it is
    and the tap is not enabled again. *)
Lemma user_input_disable_not_reenabled :
  is_disabled_report kCGEventTapDisabledByUserInput = true
  /\ event_tap_callback Sample.installed kCGEventTapDisabledByUserInput
       (Sample.key 0 0) = (Some (Sample.key 0 0), [])
  /\ reenabled (event_tap_callback Sample.installed
                  kCGEventTapDisabledByUserInput (Sample.key 0 0)) = false.
Proof. repeat split. Qed.

(** C4, amended.  Every event that reports the tap as disabled is passed
    through unchanged and starts no handler.  The tap is enabled again
    exactly when the report is the one for a timeout (and the daemon and
    the tap are set); on the report for user input it is left disabled. *)
Theorem disabled_tap_report (g : Globals) (event_type : Z) (event : CGEvent) :
  is_disabled_report event_type = true ->
  fst (event_tap_callback g event_type event) = Some event
  /\ dispatched (event_tap_callback g event_type event) = []
  /\ reenabled (event_tap_callback g event_type event)
     = daemon g && event_tap g && (event_type =? kCGEventTapDisabledByTimeout).
Proof.
  unfold is_disabled_report, event_tap_callback. intro H.
  destruct (daemon g); simpl; [|repeat split].
  destruct (event_type =? kCGEventTapDisabledByTimeout) eqn:T.
  - destruct (event_tap g); repeat split.
  - simpl in H. rewrite H. rewrite andb_false_r. repeat split.
Qed.

Lemma disabled_tap_report_witness :
  reenabled (event_tap_callback Sample.installed kCGEventTapDisabledByTimeout
               (Sample.key 0 0)) = true.
Proof.
  refine (proj2 (proj2 (disabled_tap_report Sample.installed
                          kCGEventTapDisabledByTimeout (Sample.key 0 0) _))).
  reflexivity.
Defined.

Lemma deliver_all_skip (g : Globals) (raw : Z * CGEvent)
      (pre post : list (Z * CGEvent)) (d : Daemon.SpeakDaemon) :
  dispatched (event_tap_callback g (fst raw) (snd raw)) = [] ->
  deliver_all g (pre ++ raw :: post) d = deliver_all g (pre ++ post) d.
Proof.
  intro H. revert d. induction pre as [|x pre IH]; intro d; simpl.
  - unfold Daemon.bind, deliver. rewrite H. simpl.
    destruct (deliver_all g post d) as [[u d1] o1]. reflexivity.
  - unfold Daemon.bind. destruct (deliver g x d) as [[u d1] o1].
    rewrite IH. reflexivity.
Qed.

Lemma repeat_press_dispatches_nothing (g : Globals) (event_type : Z) (event : CGEvent) :
  is_repeat_press event_type event = true ->
  dispatched (event_tap_callback g event_type event) = [].
Proof.
  unfold is_repeat_press, event_tap_callback. intro H.
  apply andb_prop in H. destruct H as [Hd Hr].
  apply negb_true_iff in Hr. rewrite Hr, andb_false_r.
  apply Z.eqb_eq in Hd. subst event_type.
  destruct (daemon g); [|reflexivity]. simpl.
  destruct (Z.land (CGEventGetFlags event) kCGEventFlagMaskAlternate =? 0);
    [reflexivity|]. simpl.
  destruct (kCGKeyboardEventKeycode event =? Config.KEYCODE_R); [reflexivity|].
  destruct (kCGKeyboardEventKeycode event =? Config.KEYCODE_T); reflexivity.
Qed.

(** C6, as stated, fails.  The release of the toggle chord (Option+T up,
    not a repeat) is swallowed and no handler is started for it. *)
Lemma toggle_release_not_forwarded :
  is_chord (Sample.key Config.KEYCODE_T 0) = true
  /\ event_tap_callback Sample.installed kCGEventKeyUp
       (Sample.key Config.KEYCODE_T 0) = (None, [])
  /\ dispatched (event_tap_callback Sample.installed kCGEventKeyUp
                   (Sample.key Config.KEYCODE_T 0)) = [].
Proof. repeat split. Qed.

(** C6, amended.  An auto-repeat press starts no handler, so a stream of
    raw events drives the daemon exactly as the stream without that
    event; and [_handle_push_to_talk_down] does nothing while the chord
    is marked held.  Every release of the push-to-talk chord starts
    [_handle_push_to_talk_up], whatever its repeat field.  A release of
    the toggle chord is swallowed and starts nothing. *)
Theorem repeats_ignored_release_forwarded
  (g : Globals) (event_type : Z) (event : CGEvent) :
  (is_repeat_press event_type event = true ->
   dispatched (event_tap_callback g event_type event) = []
   /\ forall pre post d,
        deliver_all g (pre ++ (event_type, event) :: post) d
        = deliver_all g (pre ++ post) d)
  /\ (forall d, Daemon.push_to_talk_held d = true ->
        Daemon.handle_push_to_talk_down d = (tt, d, []))
  /\ (daemon g = true -> option_held event = true ->
      kCGKeyboardEventKeycode event = Config.KEYCODE_R ->
      event_tap_callback g kCGEventKeyUp event
      = (None, [ThreadStart HandlePushToTalkUp]))
  /\ (daemon g = true -> option_held event = true ->
      kCGKeyboardEventKeycode event = Config.KEYCODE_T ->
      event_tap_callback g kCGEventKeyUp event = (None, [])).
Proof.
  split; [|split; [|split]].
  - intro H. pose proof (repeat_press_dispatches_nothing g _ _ H) as D.
    split; [exact D|]. intros pre post d.
    apply (deliver_all_skip g (event_type, event)). exact D.
  - intros d H. rewrite handle_push_to_talk_down_spec, H, andb_false_r.
    reflexivity.
  - intros Hg Ho Hk. unfold event_tap_callback, option_held in *.
    rewrite Hg, Ho, Hk. reflexivity.
  - intros Hg Ho Hk. unfold event_tap_callback, option_held in *.
    rewrite Hg, Ho, Hk. reflexivity.
Qed.

Lemma repeats_ignored_release_forwarded_witness :
  dispatched (event_tap_callback Sample.installed kCGEventKeyDown
                (Sample.key Config.KEYCODE_R 1)) = []
  /\ event_tap_callback Sample.installed kCGEventKeyUp
       (Sample.key Config.KEYCODE_R 1)
     = (None, [ThreadStart HandlePushToTalkUp]).
Proof.
  split.
  - refine (proj1 (proj1 (repeats_ignored_release_forwarded Sample.installed
                            kCGEventKeyDown (Sample.key Config.KEYCODE_R 1)) _)).
    reflexivity.
  - refine (proj1 (proj2 (proj2 (repeats_ignored_release_forwarded
                                   Sample.installed kCGEventKeyUp
                                   (Sample.key Config.KEYCODE_R 1)))) _ _ _);
      reflexivity.
Defined.

End RouterFacts.

(** ** The transcription worker *)

Section WorkerFacts.

Import Daemon Contract.

Variable whisper : Clip -> option PyStr.str.

Lemma transcribe_spec (audio : Clip) (d : SpeakDaemon) :
  let text := PyStr.strip (match whisper audio with Some t => t | None => [] end) in
  transcribe whisper audio d =
  (text,
   if model_loaded d then d else set_model_loaded true d,
   (if model_loaded d then [] else [Print MsgWaitingForModel; ModelLoadedWait])
   ++ [Print MsgTranscribing; WhisperTranscribe audio; Print (MsgResult text)]).
Proof.
  unfold transcribe, bind, get. destruct (model_loaded d); reflexivity.
Qed.

Lemma type_text_spec (text : PyStr.str) (d : SpeakDaemon) :
  type_text text d =
  if PyStr.truthy text then (tt, d, [done_cue; Sleep 50; KeyboardType text])
  else (tt, d, []).
Proof.
  unfold type_text. destruct (PyStr.truthy text); reflexivity.
Qed.

(** C9.  The worker strips the model's text.  When the text is empty or
    white space only, nothing follows the call of the model but the
    console line: no cue, no delay, no call of the keyboard controller.
    Otherwise the output ends with the completion cue, the 50 ms delay
    and one call of the keyboard controller with the stripped text, and
    that call is the only one. *)
Theorem transcription_result_typed_once (audio : Clip) (d : SpeakDaemon) :
  let raw := match whisper audio with Some t => t | None => [] end in
  let text := PyStr.strip raw in
  let out := output_of (transcribe_and_type whisper audio d) in
  out = (if model_loaded d then [] else [Print MsgWaitingForModel; ModelLoadedWait])
        ++ [Print MsgTranscribing; WhisperTranscribe audio; Print (MsgResult text)]
        ++ (if whitespace_only raw then []
            else [done_cue; Sleep 50; KeyboardType text])
  /\ typed out = (if whitespace_only raw then [] else [text])
  /\ filter is_cue out = (if whitespace_only raw then [] else [done_cue])
  /\ (whitespace_only raw = false -> text <> []).
Proof.
  cbv zeta. unfold transcribe_and_type, bind.
  pose proof (transcribe_spec audio d) as T. cbv zeta in T. rewrite T. clear T.
  set (raw := match whisper audio with Some t => t | None => [] end).
  cbv beta iota zeta.
  assert (W := truthy_strip raw).
  destruct (whitespace_only raw) eqn:E; simpl in W; rewrite W;
    [unfold ret | rewrite type_text_spec, W]; cbv beta iota zeta.
  - unfold output_of; simpl snd. rewrite app_nil_r.
    repeat split; try discriminate;
      destruct (model_loaded d); reflexivity.
  - unfold output_of; simpl snd. rewrite <- app_assoc.
    repeat split; try (destruct (model_loaded d); reflexivity).
    intros _ N. rewrite N in W. discriminate.
Qed.

End WorkerFacts.

Section WorkerExamples.

Import Daemon Contract.

(** The model answers "hello world": it is typed once. *)
Lemma transcription_result_typed_once_witness :
  typed (output_of (transcribe_and_type (fun _ => Some Sample.hello_world)
                      Sample.chunk_300ms init))
  = [Sample.hello_world]
  /\ PyStr.strip Sample.hello_world <> [].
Proof.
  pose proof (transcription_result_typed_once
                (fun _ => Some Sample.hello_world) Sample.chunk_300ms init) as H.
  cbv zeta in H. destruct H as [_ [H1 [_ H3]]].
  split; [exact H1 | apply H3; reflexivity].
Defined.

(** The model answers white space: nothing is typed, no cue is played. *)
Lemma blank_dropped :
  output_of (transcribe_and_type (fun _ => Some Sample.blank) Sample.one init)
  = [Print MsgWaitingForModel; ModelLoadedWait; Print MsgTranscribing;
     WhisperTranscribe Sample.one; Print (MsgResult [])].
Proof. vm_compute. reflexivity. Qed.

End WorkerExamples.

(** ** The audio callback against [stop_recording] *)

Section RaceFacts.

Import Race.

Lemma session_invariant : invariant session.
Proof.
  unfold invariant, lock_ok, flag_ok, data_ok. simpl.
  repeat split; intros; discriminate.
Qed.

Lemma accepted_deliver (dl : list (Daemon.Chunk * bool)) (x : Daemon.Chunk) (b : bool) :
  map fst (filter snd (dl ++ [(x, b)]))
  = map fst (filter snd dl) ++ (if b then [x] else []).
Proof.
  rewrite filter_app, map_app. destruct b; reflexivity.
Qed.

Lemma race_step_invariant (m : Move) (s s' : State) :
  invariant s -> step m s = Some s' -> invariant s'.
Proof.
  destruct s as [rec buf lk cb sp dl].
  unfold invariant, lock_ok, flag_ok, data_ok, accepted, in_flight.
  simpl. intros [L [F D]] H.
  destruct m; simpl in H.
  - (* Deliver *)
    destruct cb; try discriminate. injection H as <-. simpl.
    rewrite accepted_deliver.
    split; [|split].
    + destruct lk as [[|]|]; destruct L as [L1 L2]; split;
        try assumption; try (intros x; destruct rec; discriminate).
      destruct L1 as [x L1]. discriminate.
    + assumption.
    + destruct sp; subst rec; simpl in *;
        try (rewrite D, ?app_nil_r; reflexivity).
      destruct D as [kept [D1 [D2 D3]]]. exists kept.
      rewrite D2, ?app_nil_r in *. repeat split; assumption.
  - (* AudioStep *)
    destruct cb as [|x|x]; try discriminate.
    + destruct lk; try discriminate. injection H as <-. simpl.
      destruct L as [L1 L2].
      split; [|split]; try assumption.
      split; [exists x; reflexivity | assumption].
    + assert (H' : s' = {| is_recording := rec; audio_buffer := buf ++ [x];
                           audio_lock := None; callback := CbIdle;
                           stopper := sp; delivered := dl |})
        by (destruct lk; injection H as <-; reflexivity).
      subst s'. simpl. clear H.
      assert (Lsp : sp <> SpInLock).
      { destruct lk as [[|]|]; destruct L as [L1 L2]; try assumption;
          exfalso; apply (L2 x); reflexivity. }
      split; [|split]; try assumption.
      * split; [assumption | intros y; discriminate].
      * destruct sp; try (rewrite D, app_nil_r; reflexivity).
        destruct D as [kept [D1 [D2 D3]]]. exists kept.
        rewrite app_nil_r. repeat split; assumption.
  - (* StopStep *)
    destruct sp.
    + injection H as <-. subst rec. simpl.
      split; [|split]; try reflexivity; try assumption.
      destruct lk as [[|]|]; destruct L as [L1 L2]; split;
        try assumption; try discriminate.
    + injection H as <-. simpl.
      split; [|split]; try reflexivity; try assumption.
      destruct lk as [[|]|]; destruct L as [L1 L2]; split;
        try assumption; try discriminate.
    + injection H as <-. simpl.
      split; [|split]; try assumption.
      destruct lk as [[|]|]; destruct L as [L1 L2]; split;
        try assumption; try discriminate.
    + destruct lk; try discriminate. injection H as <-. simpl.
      destruct L as [L1 L2].
      split; [|split]; try assumption.
      split; [reflexivity | assumption].
    + injection H as <-. simpl.
      assert (L2 : forall x, cb <> CbAtAppend x).
      { destruct lk as [[|]|]; destruct L as [L1 L2]; try assumption;
          exfalso; apply L2; reflexivity. }
      split; [|split]; try assumption.
      * split; [discriminate | assumption].
      * exists buf. repeat split; try assumption.
        destruct cb; simpl; lia.
    + discriminate.
Qed.

Lemma race_run_invariant (ms : list Move) (s s' : State) :
  invariant s -> run ms s = Some s' -> invariant s'.
Proof.
  revert s. induction ms as [|m r IH]; intros s I H; simpl in H.
  - injection H as <-. exact I.
  - destruct (step m s) as [s1|] eqn:E; [|discriminate].
    apply (IH s1); [apply (race_step_invariant m s); assumption | exact H].
Qed.

(** The step relation agrees with the methods of the daemon when a call
    runs alone. *)
Lemma session_is_started (d : Daemon.SpeakDaemon) :
  session = of_daemon (Contract.started d).
Proof. reflexivity. Qed.

Lemma stop_moves_agree (d : Daemon.SpeakDaemon) :
  exists s',
    run (stop_moves (Daemon.is_recording d)) (of_daemon d) = Some s'
    /\ stopper s' = SpReturned (Daemon.value_of (Daemon.stop_recording d))
    /\ is_recording s'
       = Daemon.is_recording (Daemon.state_of (Daemon.stop_recording d))
    /\ audio_buffer s'
       = Daemon.audio_buffer (Daemon.state_of (Daemon.stop_recording d))
    /\ audio_lock s' = None.
Proof.
  rewrite stop_recording_spec.
  destruct d as [ml rec buf st tog held]. destruct rec; simpl;
    eexists; repeat split.
Qed.

Lemma callback_moves_agree (c : Daemon.Chunk) (d : Daemon.SpeakDaemon) :
  exists s',
    run (callback_moves (Daemon.is_recording d) c) (of_daemon d) = Some s'
    /\ callback s' = CbIdle /\ audio_lock s' = None
    /\ is_recording s'
       = Daemon.is_recording (Daemon.state_of (Daemon.audio_callback c false d))
    /\ audio_buffer s'
       = Daemon.audio_buffer (Daemon.state_of (Daemon.audio_callback c false d)).
Proof.
  rewrite audio_callback_spec.
  destruct d as [ml rec buf st tog held]. destruct rec; simpl;
    eexists; repeat split.
Qed.

Lemma session_quiet : quiet session.
Proof. intro H. discriminate. Qed.

Lemma step_quiet (m : Move) (s s' : State) :
  invariant s -> quiet s -> step m s = Some s' -> allowed m s = true ->
  quiet s'.
Proof.
  destruct s as [rec buf lk cb sp dl].
  unfold invariant, flag_ok, quiet, allowed, stream_stopped, callback_idle.
  simpl. intros [_ [F _]] Q H A.
  destruct m; simpl in H.
  - destruct cb; try discriminate. injection H as <-. simpl.
    intro X. rewrite X in A. discriminate.
  - destruct cb as [|x|x]; try discriminate.
    + destruct lk; try discriminate. injection H as <-. simpl.
      intro X. destruct (Q X) as [Q1 _]. discriminate.
    + assert (H' : stopper s' = sp)
        by (destruct lk; injection H as <-; reflexivity).
      rewrite H'. intro X. destruct (Q X) as [Q1 _]. discriminate.
  - destruct sp.
    + injection H as <-. subst rec. simpl. discriminate.
    + injection H as <-. simpl. discriminate.
    + injection H as <-. simpl. intros _.
      destruct cb; try discriminate. split; [reflexivity | exact I].
    + destruct lk; try discriminate. injection H as <-. simpl.
      intros _. destruct (Q eq_refl) as [Q1 _]. split; [exact Q1 | exact I].
    + injection H as <-. simpl.
      intros _. destruct (Q eq_refl) as [Q1 _]. split; [exact Q1 | reflexivity].
    + discriminate.
Qed.

Lemma run_quiet (ms : list Move) (s s' : State) :
  invariant s -> quiet s -> run ms s = Some s' -> stop_waits ms s = true ->
  quiet s'.
Proof.
  revert s. induction ms as [|m r IH]; intros s I Q H W; simpl in H, W.
  - injection H as <-. exact Q.
  - destruct (step m s) as [s1|] eqn:E; [|discriminate].
    apply andb_prop in W. destruct W as [A W].
    apply (IH s1); try assumption.
    + apply (race_step_invariant m s); assumption.
    + apply (step_quiet m s); assumption.
Qed.

(** X20.  When [stream.stop()] lets a running callback end first and
    nothing is delivered to a stopped stream, no chunk is left behind:
    the clip is the concatenation of all chunks delivered while the flag
    was set. *)
Lemma exact_clip_when_stop_waits (ms : list Move) (s : State) (r : option Daemon.Clip) :
  run ms session = Some s ->
  stop_waits ms session = true ->
  stopper s = SpReturned r ->
  r = finalize (accepted s) /\ audio_buffer s = [] /\ callback s = CbIdle.
Proof.
  intros H W R.
  destruct (race_run_invariant ms session s session_invariant H) as [_ [_ D]].
  pose proof (run_quiet ms session s session_invariant session_quiet H W) as Q.
  unfold quiet, stream_stopped in Q. unfold data_ok in D. rewrite R in Q, D.
  destruct (Q eq_refl) as [Q1 Q2].
  destruct D as [kept [D1 [D2 _]]].
  unfold in_flight in D2. rewrite Q1, Q2 in D2. simpl in D2.
  rewrite app_nil_r in D2. rewrite D2. repeat split; assumption.
Qed.

(** C2, as stated, fails.  The callback tests [self.is_recording]
    before it enters [with self.audio_lock]: after the test it stands
    before the lock without holding it, [stop_recording] can run from
    its first line to its return in between, and the callback's append
    then lands in the buffer of a daemon that is no longer recording. *)
Lemma flag_check_outside_lock :
  match run [Deliver Sample.one] session with
  | Some s => callback s = CbAtLock Sample.one /\ audio_lock s = None
  | None => False
  end
  /\ match run Sample.overtaken session with
     | Some s => is_recording s = false
                 /\ stopper s = SpReturned None
                 /\ audio_buffer s = [Sample.one]
     | None => False
     end.
Proof. vm_compute. repeat split. Qed.

(** C2, amended.  The lock covers the append and the read-and-clear of
    [stop_recording], and nothing else: in every state a schedule
    reaches, the callback stands at its append only while it holds the
    lock, [stop_recording] stands at its read only while it holds the
    lock, the two are never there together, and the callback that has
    tested the flag and not yet entered [with] does not hold the lock. *)
Theorem lock_covers_append_only (ms : list Move) (s : State) :
  run ms session = Some s ->
  (forall x, callback s = CbAtAppend x -> audio_lock s = Some AudioThread)
  /\ (stopper s = SpInLock -> audio_lock s = Some StopThread)
  /\ ~ (exists x, callback s = CbAtAppend x /\ stopper s = SpInLock)
  /\ (forall x, callback s = CbAtLock x -> audio_lock s <> Some AudioThread).
Proof.
  intro H. destruct (race_run_invariant ms session s session_invariant H) as [L _].
  unfold lock_ok in L.
  destruct (audio_lock s) as [[|]|]; destruct L as [L1 L2];
    (split; [|split; [|split]]).
  - reflexivity.
  - intro C. contradiction.
  - intros [x [_ C]]. contradiction.
  - destruct L1 as [y L1]. intros x C. congruence.
  - intros x C. exfalso. exact (L2 x C).
  - reflexivity.
  - intros [x [C _]]. exact (L2 x C).
  - discriminate.
  - intros x C. exfalso. exact (L2 x C).
  - intro C. contradiction.
  - intros [x [C _]]. exact (L2 x C).
  - discriminate.
Qed.

Lemma lock_covers_append_only_witness :
  match run [Deliver Sample.one; AudioStep] session with
  | Some s => callback s = CbAtAppend Sample.one
              /\ audio_lock s = Some AudioThread
  | None => False
  end.
Proof.
  destruct (run [Deliver Sample.one; AudioStep] session) as [s|] eqn:E;
    [|vm_compute in E; discriminate].
  destruct (lock_covers_append_only [Deliver Sample.one; AudioStep] s E)
    as [H _].
  vm_compute in E. injection E as <-.
  split; [reflexivity | apply (H Sample.one); reflexivity].
Defined.

(** C3, as stated, fails.  Two chunks are delivered while the flag is
    set; the second has passed the flag test but is not yet appended when
    [stop_recording] reads the buffer, so the clip holds the first chunk
    only and the second is left behind in the buffer. *)
Lemma accepted_chunk_lost :
  match run Sample.overtaken_second session with
  | Some s => accepted s = [Sample.one; Sample.two]
              /\ stopper s = SpReturned (finalize [Sample.one])
              /\ stopper s <> SpReturned (finalize (accepted s))
              /\ audio_buffer s = [Sample.two]
  | None => False
  end.
Proof. vm_compute. repeat split. discriminate. Qed.

(** C3, amended.  When [stop_recording] has returned, its clip is the
    concatenation, in delivery order, of a front part of the chunks that
    were delivered while the flag was set, so no chunk delivered after
    the flag was cleared is in it.  The chunks not in the clip are those
    the callback appended after the buffer was read or still holds; there
    is at most one, the chunk that had passed the flag test and was not
    yet appended when [stop_recording] read the buffer. *)
Theorem clip_is_front_of_accepted (ms : list Move) (s : State) (r : option Daemon.Clip) :
  run ms session = Some s ->
  stopper s = SpReturned r ->
  is_recording s = false
  /\ exists kept late,
       accepted s = kept ++ late
       /\ r = finalize kept
       /\ late = audio_buffer s ++ in_flight s
       /\ (List.length late <= 1)%nat
       /\ (late = [] -> r = finalize (accepted s)).
Proof.
  intros H R.
  destruct (race_run_invariant ms session s session_invariant H) as [_ [F D]].
  unfold flag_ok in F. unfold data_ok in D. rewrite R in F, D.
  split; [exact F|].
  destruct D as [kept [D1 [D2 D3]]].
  exists kept, (audio_buffer s ++ in_flight s).
  repeat split; try assumption.
  intro E. rewrite D2, E, app_nil_r. exact D1.
Qed.

Lemma clip_is_front_of_accepted_witness :
  match run Sample.overtaken_second session with
  | Some s =>
      exists kept late,
        accepted s = kept ++ late
        /\ stopper s = SpReturned (finalize kept)
        /\ (List.length late <= 1)%nat
  | None => False
  end.
Proof.
  destruct (run Sample.overtaken_second session) as [s|] eqn:E;
    [|vm_compute in E; discriminate].
  assert (R : stopper s = SpReturned (finalize [Sample.one]))
    by (vm_compute in E; injection E as <-; reflexivity).
  destruct (clip_is_front_of_accepted Sample.overtaken_second s _ E R)
    as [_ [kept [late [A [K [_ [N _]]]]]]].
  exists kept, late. rewrite R, <- K. repeat split; assumption.
Defined.

End RaceFacts.

(** ** The model-readiness event *)

Section GateFacts.

Import Gate.

Lemma Forall_set_nth {A} (P : A -> Prop) (i : nat) (v : A) (l : list A) :
  Forall P l -> P v -> Forall P (set_nth i v l).
Proof.
  intros H Hv. revert i.
  induction H as [|a r Ha Hr IH]; intro i; destruct i; simpl;
    constructor; auto.
Qed.

Lemma step_monotone (m : Move) (s s' : State) :
  step m s = Some s' -> model_loaded s = true -> model_loaded s' = true.
Proof.
  intros H T. destruct m; simpl in H.
  - destruct (loader s); try discriminate; injection H as <-; simpl; auto.
  - injection H as <-. exact T.
  - destruct (nth_error (workers s) i) as [[| | |]|]; try discriminate.
    + injection H as <-. exact T.
    + rewrite T in H. injection H as <-. reflexivity.
    + injection H as <-. exact T.
Qed.

Lemma run_monotone (ms : list Move) (s s' : State) :
  run ms s = Some s' -> model_loaded s = true -> model_loaded s' = true.
Proof.
  revert s. induction ms as [|m r IH]; intros s H T; simpl in H.
  - injection H as <-. exact T.
  - destruct (step m s) as [s1|] eqn:E; [|discriminate].
    apply (IH s1 H). apply (step_monotone m s); assumption.
Qed.

Lemma flags_head (ms : list Move) (s : State) :
  exists tl, flags ms s = model_loaded s :: tl.
Proof. destruct ms; simpl; eexists; reflexivity. Qed.

(** Along a schedule the flag never falls, and it rises once exactly
    when it is clear at the start and set at the end. *)
Lemma flags_run (ms : list Move) (s s' : State) :
  run ms s = Some s' ->
  falls (flags ms s) = O
  /\ rises (flags ms s) = if negb (model_loaded s) && model_loaded s' then 1%nat else O.
Proof.
  revert s. induction ms as [|m r IH]; intros s H; simpl in H.
  - injection H as <-. simpl. destruct (model_loaded s); split; reflexivity.
  - destruct (step m s) as [s1|] eqn:E; [|discriminate].
    destruct (IH s1 H) as [F R].
    pose proof (step_monotone m s s1 E) as M1.
    pose proof (run_monotone r s1 s' H) as M2.
    simpl flags. rewrite E.
    destruct (flags_head r s1) as [tl T]. rewrite T in *.
    destruct (model_loaded s), (model_loaded s1), (model_loaded s');
      simpl in *; try (split; congruence);
      try (specialize (M1 eq_refl); discriminate);
      try (specialize (M2 eq_refl); discriminate).
Qed.

Lemma init_invariant : invariant init.
Proof.
  split; [split; discriminate | constructor].
Qed.

Lemma gate_step_invariant (m : Move) (s s' : State) :
  invariant s -> step m s = Some s' -> invariant s'.
Proof.
  intros [L W] H. destruct m; simpl in H.
  - destruct (loader s) eqn:E; try discriminate; injection H as <-;
      (split; simpl;
       [ rewrite ?E in L; split; intro X; try reflexivity; try discriminate;
         apply L in X; discriminate
       | try exact W ]).
    apply Forall_forall. reflexivity.
  - injection H as <-. split; [exact L|]. simpl.
    apply Forall_app. split; [exact W|].
    constructor; [discriminate | constructor].
  - destruct (nth_error (workers s) i) as [w|] eqn:N; [|discriminate].
    assert (G : past_gate w = true -> model_loaded s = true).
    { rewrite Forall_forall in W. apply W. apply (nth_error_In _ _ N). }
    destruct w.
    + injection H as <-. split; [exact L|]. simpl.
      apply Forall_set_nth; [exact W|].
      destruct (model_loaded s); simpl; [reflexivity | discriminate].
    + destruct (model_loaded s) eqn:T; [|discriminate].
      injection H as <-. split; [exact L|]. simpl.
      apply Forall_set_nth; [exact W | reflexivity].
    + injection H as <-. split; [exact L|]. simpl.
      apply Forall_set_nth; [exact W | intros _; apply G; reflexivity].
    + discriminate.
Qed.

Lemma gate_run_invariant (ms : list Move) (s s' : State) :
  invariant s -> run ms s = Some s' -> invariant s'.
Proof.
  revert s. induction ms as [|m r IH]; intros s I H; simpl in H.
  - injection H as <-. exact I.
  - destruct (step m s) as [s1|] eqn:E; [|discriminate].
    apply (IH s1); [apply (gate_step_invariant m s); assumption | exact H].
Qed.

Lemma finish_loading_sets (s : State) :
  exists s', run (finish_loading (loader s)) s = Some s'
             /\ (loader s <> LdDone -> model_loaded s' = true)
             /\ loader s' = LdDone.
Proof.
  destruct s as [b l w]. destruct l; simpl; eexists;
    (split; [reflexivity | split; [intros; try reflexivity; congruence | reflexivity]]).
Qed.

Lemma nth_error_set_nth {A} (i : nat) (v w : A) (l : list A) :
  nth_error l i = Some w -> nth_error (set_nth i v l) i = Some v.
Proof.
  revert i. induction l as [|a r IH]; intros i H; destruct i; simpl in *;
    try discriminate; [reflexivity | apply IH; exact H].
Qed.

(** C8.  Along every schedule from the daemon's start the flag never
    goes from set to clear, and it goes from clear to set once if it is
    set at the end and not at all otherwise; no move clears a set flag,
    and the loader's remaining moves always set it.  A worker stands at
    the call of the model, or past it, only in states where the flag is
    set: a worker that tests the flag while it is clear goes to [wait()],
    from where it cannot move as long as the flag is clear and can move
    as soon as it is set. *)
Theorem model_readiness_gate (ms : list Move) (s : State) :
  run ms init = Some s ->
  falls (flags ms init) = O
  /\ rises (flags ms init) = (if model_loaded s then 1%nat else O)
  /\ (forall m s', step m s = Some s' ->
                   model_loaded s = true -> model_loaded s' = true)
  /\ (exists s', run (finish_loading (loader s)) s = Some s'
                 /\ model_loaded s' = true)
  /\ (forall i w, nth_error (workers s) i = Some w ->
                  past_gate w = true -> model_loaded s = true)
  /\ (forall i, nth_error (workers s) i = Some WkEntry ->
                model_loaded s = false ->
                exists s', step (WorkerStep i) s = Some s'
                           /\ nth_error (workers s') i = Some WkWait)
  /\ (forall i, nth_error (workers s) i = Some WkWait ->
                (step (WorkerStep i) s = None <-> model_loaded s = false)).
Proof.
  intro H.
  destruct (flags_run ms init s H) as [F R].
  destruct (gate_run_invariant ms init s init_invariant H) as [L W].
  split; [exact F|]. split; [exact R|].
  split; [intros m s' E; apply (step_monotone m s s' E)|].
  split.
  { destruct (finish_loading_sets s) as [s' [E [T D]]].
    destruct (loader s) eqn:Q; try (exists s'; split; [exact E|apply T; discriminate]).
    exists s. split; [reflexivity | apply L; reflexivity]. }
  split.
  { intros i w N. rewrite Forall_forall in W. apply W.
    apply (nth_error_In _ _ N). }
  split.
  { intros i N T. simpl. rewrite N, T. simpl.
    eexists. split; [reflexivity|]. simpl.
    apply (nth_error_set_nth i WkWait WkEntry). exact N. }
  intros i N. simpl. rewrite N.
  destruct (model_loaded s); split; intro X; try reflexivity; discriminate.
Qed.

Lemma model_readiness_gate_witness :
  rises (flags Sample.early_worker init) = 1%nat
  /\ falls (flags Sample.early_worker init) = O.
Proof.
  destruct (run Sample.early_worker init) as [s|] eqn:E;
    [|vm_compute in E; discriminate].
  destruct (model_readiness_gate Sample.early_worker s E) as [F [R _]].
  split; [|exact F].
  rewrite R. vm_compute in E. injection E as <-. reflexivity.
Defined.

End GateFacts.

(** ** More on the router *)

Section RouterMore.

Import Quartz Router.

(** X1.  The callback swallows an event exactly when the daemon is set,
    the event is a key-down or key-up, Option is held and the key is R or
    T; every other event is returned as it came. *)
Theorem callback_swallows_exactly_chords
  (g : Globals) (event_type : Z) (event : CGEvent) :
  fst (event_tap_callback g event_type event)
  = if daemon g
       && ((event_type =? kCGEventKeyDown) || (event_type =? kCGEventKeyUp))
       && is_chord event
    then None else Some event.
Proof.
  unfold event_tap_callback, is_chord, option_held.
  destruct (daemon g); [|reflexivity]. simpl.
  destruct (event_type =? kCGEventTapDisabledByTimeout) eqn:T.
  { apply Z.eqb_eq in T. subst. reflexivity. }
  destruct (event_type =? kCGEventTapDisabledByUserInput) eqn:U.
  { apply Z.eqb_eq in U. subst. reflexivity. }
  destruct ((event_type =? kCGEventKeyDown) || (event_type =? kCGEventKeyUp));
    [|reflexivity]. simpl.
  destruct (Z.land (CGEventGetFlags event) kCGEventFlagMaskAlternate =? 0);
    [reflexivity|]. simpl.
  destruct (kCGKeyboardEventKeycode event =? Config.KEYCODE_R); [reflexivity|].
  destruct (kCGKeyboardEventKeycode event =? Config.KEYCODE_T); reflexivity.
Qed.

Lemma dispatched_at_most_one (g : Globals) (event_type : Z) (event : CGEvent) :
  (List.length (dispatched (event_tap_callback g event_type event)) <= 1)%nat.
Proof.
  unfold event_tap_callback.
  destruct (daemon g); [|simpl; lia]. simpl.
  destruct (event_type =? kCGEventTapDisabledByTimeout);
    [destruct (event_tap g); simpl; lia|].
  destruct (event_type =? kCGEventTapDisabledByUserInput); [simpl; lia|].
  destruct ((event_type =? kCGEventKeyDown) || (event_type =? kCGEventKeyUp));
    [|simpl; lia]. simpl.
  destruct (Z.land (CGEventGetFlags event) kCGEventFlagMaskAlternate =? 0);
    [simpl; lia|]. simpl.
  destruct (kCGKeyboardEventKeycode event =? Config.KEYCODE_R).
  { destruct ((event_type =? kCGEventKeyDown)
              && (kCGKeyboardEventAutorepeat event =? 0));
      [|destruct (event_type =? kCGEventKeyUp)]; simpl; lia. }
  destruct (kCGKeyboardEventKeycode event =? Config.KEYCODE_T); [|simpl; lia].
  destruct ((event_type =? kCGEventKeyDown)
            && (kCGKeyboardEventAutorepeat event =? 0)); simpl; lia.
Qed.

(** X2.  The callback starts at most one handler for an event, starts
    one only for an event it swallows, and never both starts a handler
    and enables the tap. *)
Theorem callback_starts_at_most_one_handler
  (g : Globals) (event_type : Z) (event : CGEvent) :
  (List.length (dispatched (event_tap_callback g event_type event)) <= 1)%nat
  /\ (dispatched (event_tap_callback g event_type event) <> [] ->
      fst (event_tap_callback g event_type event) = None
      /\ reenabled (event_tap_callback g event_type event) = false).
Proof.
  unfold event_tap_callback.
  destruct (daemon g); [|split; [simpl; lia | intro H; exfalso; apply H; reflexivity]].
  simpl.
  destruct (event_type =? kCGEventTapDisabledByTimeout).
  { destruct (event_tap g); (split; [simpl; lia | intro H; exfalso; apply H; reflexivity]). }
  destruct (event_type =? kCGEventTapDisabledByUserInput).
  { split; [simpl; lia | intro H; exfalso; apply H; reflexivity]. }
  destruct ((event_type =? kCGEventKeyDown) || (event_type =? kCGEventKeyUp));
    [|split; [simpl; lia | intro H; exfalso; apply H; reflexivity]].
  simpl.
  destruct (Z.land (CGEventGetFlags event) kCGEventFlagMaskAlternate =? 0);
    [split; [simpl; lia | intro H; exfalso; apply H; reflexivity]|].
  simpl.
  destruct (kCGKeyboardEventKeycode event =? Config.KEYCODE_R).
  { destruct ((event_type =? kCGEventKeyDown)
              && (kCGKeyboardEventAutorepeat event =? 0));
      [|destruct (event_type =? kCGEventKeyUp)];
      (split; [simpl; lia | intros _; split; reflexivity]). }
  destruct (kCGKeyboardEventKeycode event =? Config.KEYCODE_T).
  { destruct ((event_type =? kCGEventKeyDown)
              && (kCGKeyboardEventAutorepeat event =? 0));
      (split; [simpl; lia | intros _; split; reflexivity]). }
  split; [simpl; lia | intro H; exfalso; apply H; reflexivity].
Qed.

Lemma callback_starts_at_most_one_handler_witness :
  fst (event_tap_callback Sample.installed kCGEventKeyDown
         (Sample.key Config.KEYCODE_T 0)) = None
  /\ reenabled (event_tap_callback Sample.installed kCGEventKeyDown
                  (Sample.key Config.KEYCODE_T 0)) = false.
Proof.
  refine (proj2 (callback_starts_at_most_one_handler Sample.installed
                   kCGEventKeyDown (Sample.key Config.KEYCODE_T 0)) _).
  discriminate.
Defined.

(** X3.  An event that is not a chord (Option not held, or a key other
    than R and T) is returned as it came and leaves the daemon as it is:
    in particular a release of R after Option was let go does not end a
    push-to-talk capture. *)
Theorem non_chord_event_changes_nothing
  (g : Globals) (event_type : Z) (event : CGEvent) (d : Daemon.SpeakDaemon) :
  is_chord event = false ->
  fst (event_tap_callback g event_type event) = Some event
  /\ deliver g (event_type, event) d = (tt, d, []).
Proof.
  intro H.
  assert (E : fst (event_tap_callback g event_type event) = Some event
              /\ dispatched (event_tap_callback g event_type event) = []).
  { unfold event_tap_callback, is_chord, option_held in *.
    destruct (daemon g); [|split; reflexivity]. simpl.
    destruct (event_type =? kCGEventTapDisabledByTimeout).
    { destruct (event_tap g); split; reflexivity. }
    destruct (event_type =? kCGEventTapDisabledByUserInput);
      [split; reflexivity|].
    destruct ((event_type =? kCGEventKeyDown) || (event_type =? kCGEventKeyUp));
      [|split; reflexivity]. simpl.
    destruct (Z.land (CGEventGetFlags event) kCGEventFlagMaskAlternate =? 0);
      [split; reflexivity|]. simpl in *.
    apply orb_false_iff in H. destruct H as [H1 H2]. rewrite H1, H2.
    split; reflexivity. }
  destruct E as [E1 E2]. split; [exact E1|].
  unfold deliver. simpl fst. simpl snd. rewrite E2. reflexivity.
Qed.

(** Option+R goes down, Option is let go, R comes up: still recording. *)
Lemma non_chord_event_changes_nothing_witness :
  Daemon.is_recording
    (Daemon.state_of
       (deliver_all Sample.installed
          [(kCGEventKeyDown, Sample.key Config.KEYCODE_R 0);
           (kCGEventKeyUp,
            {| kCGKeyboardEventKeycode := Config.KEYCODE_R;
               CGEventGetFlags := 0;
               kCGKeyboardEventAutorepeat := 0 |})]
          Daemon.init)) = true
  /\ deliver Sample.installed
       (kCGEventKeyUp,
        {| kCGKeyboardEventKeycode := Config.KEYCODE_R;
           CGEventGetFlags := 0;
           kCGKeyboardEventAutorepeat := 0 |})
       (Sample.held_recording Sample.one)
     = (tt, Sample.held_recording Sample.one, []).
Proof.
  split; [vm_compute; reflexivity|].
  refine (proj2 (non_chord_event_changes_nothing Sample.installed kCGEventKeyUp
                   {| kCGKeyboardEventKeycode := Config.KEYCODE_R;
                      CGEventGetFlags := 0;
                      kCGKeyboardEventAutorepeat := 0 |}
                   (Sample.held_recording Sample.one) _)).
  reflexivity.
Defined.

End RouterMore.

(** ** The life of the event tap *)

Section TapFacts.

Import Tap.

(** X4.  [stop_event_tap] leaves both globals unset, disables the tap if
    one was set and removes the run-loop source if one was set; called
    again it does nothing at all. *)
Theorem stop_event_tap_once_is_enough (g : Globals) :
  snd (fst (stop_event_tap g)) = unset
  /\ enabled_after (snd (stop_event_tap g)) (event_tap g) = false
  /\ source_after (snd (stop_event_tap g)) (run_loop_source g) = false
  /\ stop_event_tap (snd (fst (stop_event_tap g))) = (tt, unset, []).
Proof.
  destruct g as [t r]. destruct t, r; repeat split.
Qed.

(** X5.  When the tap cannot be created, [start_event_tap] returns
    [False], enables nothing, adds no run-loop source and leaves
    [_event_tap] unset.  When it can, the tap is enabled and the source
    added, and a following [stop_event_tap] disables the one and removes
    the other (provided the source was created). *)
Theorem start_event_tap_outcomes (tap source : bool) (g : Globals) :
  fst (fst (start_event_tap tap source g)) = tap
  /\ event_tap (snd (fst (start_event_tap tap source g))) = tap
  /\ enabled_after (snd (start_event_tap tap source g)) false = tap
  /\ source_after (snd (start_event_tap tap source g)) false = tap
  /\ (tap = false ->
      run_loop_source (snd (fst (start_event_tap tap source g)))
      = run_loop_source g)
  /\ (tap = true -> source = true ->
      let after_start := snd (fst (start_event_tap tap source g)) in
      let o := snd (start_event_tap tap source g)
               ++ snd (stop_event_tap after_start) in
      enabled_after o false = false /\ source_after o false = false).
Proof.
  destruct tap, source; repeat split; try discriminate.
Qed.

Lemma start_event_tap_outcomes_witness :
  enabled_after (snd (start_event_tap true true unset)
                 ++ snd (stop_event_tap
                           (snd (fst (start_event_tap true true unset)))))
                false = false.
Proof.
  refine (proj1 (proj2 (proj2 (proj2 (proj2 (proj2
            (start_event_tap_outcomes true true unset))))) _ _));
    reflexivity.
Defined.

(** X6.  Once [stop_event_tap] has run, the callback enables the tap for
    no event whatever, the report of a timeout included. *)
Theorem no_reenable_after_stop
  (daemon : bool) (g : Globals) (event_type : Z) (event : Quartz.CGEvent) :
  Router.reenabled
    (Router.event_tap_callback
       (router_globals daemon (snd (fst (stop_event_tap g))))
       event_type event) = false.
Proof.
  unfold Router.event_tap_callback, router_globals. simpl.
  destruct daemon; [|reflexivity]. simpl.
  destruct (event_type =? Quartz.kCGEventTapDisabledByTimeout); [reflexivity|].
  destruct (event_type =? Quartz.kCGEventTapDisabledByUserInput); [reflexivity|].
  destruct ((event_type =? Quartz.kCGEventKeyDown)
            || (event_type =? Quartz.kCGEventKeyUp)); [|reflexivity]. simpl.
  destruct (Z.land (Quartz.CGEventGetFlags event)
              Quartz.kCGEventFlagMaskAlternate =? 0); [reflexivity|]. simpl.
  destruct (Quartz.kCGKeyboardEventKeycode event =? Config.KEYCODE_R).
  { destruct ((event_type =? Quartz.kCGEventKeyDown)
              && (Quartz.kCGKeyboardEventAutorepeat event =? 0));
      [|destruct (event_type =? Quartz.kCGEventKeyUp)]; reflexivity. }
  destruct (Quartz.kCGKeyboardEventKeycode event =? Config.KEYCODE_T);
    [|reflexivity].
  destruct ((event_type =? Quartz.kCGEventKeyDown)
            && (Quartz.kCGKeyboardEventAutorepeat event =? 0)); reflexivity.
Qed.

End TapFacts.

(** ** [run] from banner to goodbye *)

Section MainFacts.

Import Main.

(** X7.  When the tap cannot be created, [run] returns after the
    failure message: it does not wait for the model, does not enter the
    event loop and does not call [stop_event_tap]. *)
Theorem run_gives_up_without_tap
  (source model_loaded : bool) (loop : LoopEnd) (g : Tap.Globals) :
  let r := run false source model_loaded loop g in
  fst (fst r) = Returned
  /\ waited (snd r) = false
  /\ entered_loop (snd r) = false
  /\ tap_calls (snd r) = snd (Tap.start_event_tap false source g)
  /\ last (snd r) (Print LineBlank) = Print LineSetupFailed.
Proof.
  destruct g as [t s]. repeat split.
Qed.


End MainFacts.

(** ** The daemon under any stream of calls *)

Section DriverFacts.

Import Daemon Contract Driver.

Lemma count_app (p : Effect -> bool) (o1 o2 : list Effect) :
  count p (o1 ++ o2) = (count p o1 + count p o2)%nat.
Proof. unfold count. rewrite filter_app, length_app. reflexivity. Qed.

Ltac handed_over_split buf :=
  let E := fresh "E" in
  let a := fresh "a" in
  destruct (handed_over_cases buf) as [E|[a E]]; rewrite E.

Lemma handler_keeps_consistent (h : Router.Handler) (d : SpeakDaemon) :
  consistent d = true ->
  consistent (state_of (Router.run_handler h d)) = true
  /\ balanced d (Router.run_handler h d).
Proof.
  intro C. destruct d as [ml rec buf st tog held].
  unfold balanced.
  destruct h; simpl Router.run_handler;
    rewrite ?handle_push_to_talk_down_spec, ?handle_push_to_talk_up_spec,
      ?handle_toggle_spec;
    destruct rec, tog, held, st, buf; try discriminate C; simpl;
    rewrite ?start_recording_spec, ?process_recording_spec; simpl;
    try (repeat split; reflexivity);
    match goal with
    | |- context [handed_over ?b] => handed_over_split b
    end; repeat split; reflexivity.
Qed.

Lemma audio_keeps_consistent (c : Chunk) (status : bool) (d : SpeakDaemon) :
  consistent d = true ->
  consistent (state_of (audio_callback c status d)) = true
  /\ balanced d (audio_callback c status d).
Proof.
  intro C. rewrite audio_callback_spec. unfold balanced.
  destruct d as [ml rec buf st tog held].
  destruct rec, tog, held, st, buf, status; try discriminate C;
    repeat split; reflexivity.
Qed.

Lemma call_keeps_consistent (g : Router.Globals) (c : Call) (d : SpeakDaemon) :
  consistent d = true ->
  consistent (state_of (call g c d)) = true /\ balanced d (call g c d).
Proof.
  intro C. destruct c as [et ev|h|x status]; simpl call.
  - unfold Router.deliver. simpl fst; simpl snd.
    pose proof (dispatched_at_most_one g et ev) as L.
    destruct (Router.dispatched (Router.event_tap_callback g et ev))
      as [|h [|h2 r]]; simpl in L; try lia; simpl Router.run_handlers.
    + unfold balanced, Daemon.ret, state_of, output_of. simpl.
      split; [exact C | split; reflexivity].
    + destruct (handler_keeps_consistent h d C) as [C1 B1].
      unfold Daemon.bind, Daemon.ret.
      destruct (Router.run_handler h d) as [[u d1] o1].
      unfold balanced, state_of, output_of in *. simpl in *.
      rewrite app_nil_r. split; assumption.
  - apply handler_keeps_consistent. exact C.
  - apply audio_keeps_consistent. exact C.
Qed.

Lemma calls_keep_consistent (g : Router.Globals) (cs : list Call) (d : SpeakDaemon) :
  consistent d = true ->
  consistent (state_of (calls g cs d)) = true /\ balanced d (calls g cs d).
Proof.
  revert d. induction cs as [|c r IH]; intros d C.
  - unfold balanced, calls, ret, state_of, output_of. simpl.
    split; [exact C | split; reflexivity].
  - simpl calls. unfold bind.
    destruct (call_keeps_consistent g c d C) as [C1 [B1 B1']].
    destruct (call g c d) as [[u d1] o1].
    unfold state_of, output_of in C1, B1, B1'. simpl in C1, B1, B1'.
    destruct (IH d1 C1) as [C2 [B2 B2']].
    destruct (calls g r d1) as [[u2 d2] o2].
    unfold balanced, state_of, output_of in *. simpl in *.
    rewrite !count_app. repeat split; try assumption; lia.
Qed.

(** X9.  In every state a fresh daemon reaches through key events,
    handler runs and audio callbacks, a stream is open exactly while the
    daemon records, [toggle_mode_active] is set only while it records,
    a recording is owned by the toggle gesture or by a held push-to-talk
    key, and the buffer is empty whenever the daemon does not record. *)
Theorem recording_fields_stay_consistent (g : Router.Globals) (cs : list Call) :
  let d := state_of (calls g cs init) in
  (is_recording d = true <-> stream d <> None)
  /\ (toggle_mode_active d = true -> is_recording d = true)
  /\ (is_recording d = true ->
      toggle_mode_active d = true \/ push_to_talk_held d = true)
  /\ (is_recording d = false -> audio_buffer d = []).
Proof.
  cbv zeta.
  destruct (calls_keep_consistent g cs init eq_refl) as [C _].
  destruct (state_of (calls g cs init)) as [ml rec buf st tog held].
  destruct rec, tog, held, st, buf; try discriminate C; simpl;
    repeat split; intros; try discriminate; try congruence; auto.
Qed.

(** X10.  Over every such run the daemon opens one input stream more
    than it has stopped exactly when it ends recording, and none more
    otherwise; every stream it stops it also closes.  No second stream is
    ever opened beside a running one. *)
Theorem streams_opened_and_stopped_balance (g : Router.Globals) (cs : list Call) :
  let r := calls g cs init in
  count is_stream_start (output_of r)
  = (count is_stream_stop (output_of r)
     + (if is_recording (state_of r) then 1 else 0))%nat
  /\ count is_stream_close (output_of r) = count is_stream_stop (output_of r).
Proof.
  cbv zeta.
  destruct (calls_keep_consistent g cs init eq_refl) as [_ [B1 B2]].
  simpl in B1. split; [lia | exact B2].
Qed.

Lemma feed_idle (cs : list Chunk) (d : SpeakDaemon) :
  is_recording d = false -> feed cs d = (tt, d, []).
Proof.
  intro H. induction cs as [|c r IH]; [reflexivity|].
  simpl. unfold bind. rewrite audio_callback_spec, H, IH. reflexivity.
Qed.

Lemma push_to_talk_gesture_spec (cs : list Chunk) (d : SpeakDaemon) :
  at_rest d = true ->
  at_rest (state_of (push_to_talk_gesture cs d)) = true
  /\ submissions (output_of (push_to_talk_gesture cs d)) = handed_over cs.
Proof.
  intro R. destruct d as [ml rec buf st tog held].
  destruct rec, tog, held; try discriminate R.
  unfold push_to_talk_gesture, bind.
  rewrite handle_push_to_talk_down_spec. simpl.
  rewrite start_recording_spec. simpl.
  rewrite feed_recording by reflexivity. simpl.
  rewrite handle_push_to_talk_up_spec. simpl.
  match goal with
  | |- context [process_recording ?x] =>
      pose proof (submissions_process_recording x) as S;
      pose proof (process_recording_spec x) as P
  end.
  simpl in S, P.
  destruct (process_recording _) as [[u d2] o2].
  unfold state_of, output_of in *. simpl in *.
  inversion P; subst. split; [reflexivity | exact S].
Qed.

Lemma toggle_gesture_spec (cs : list Chunk) (d : SpeakDaemon) :
  at_rest d = true ->
  at_rest (state_of (toggle_gesture cs d)) = true
  /\ submissions (output_of (toggle_gesture cs d)) = handed_over cs.
Proof.
  intro R. destruct d as [ml rec buf st tog held].
  destruct rec, tog, held; try discriminate R.
  unfold toggle_gesture, bind.
  rewrite handle_toggle_spec. simpl.
  rewrite start_recording_spec. simpl.
  rewrite feed_recording by reflexivity. simpl.
  rewrite handle_toggle_spec. simpl.
  match goal with
  | |- context [process_recording ?x] =>
      pose proof (submissions_process_recording x) as S;
      pose proof (process_recording_spec x) as P
  end.
  simpl in S, P.
  destruct (process_recording _) as [[u d2] o2].
  unfold state_of, output_of in *. simpl in *.
  inversion P; subst. split; [reflexivity | exact S].
Qed.

(** X11.  From a daemon at rest, any sequence of complete gestures
    (push-to-talk, toggle, or chunks arriving while nothing is recorded)
    hands over, in order, one clip for every gesture whose own chunks
    make at least 4800 samples, each clip holding the chunks of its own
    gesture and nothing else, and leaves the daemon at rest. *)
Theorem sessions_are_independent (xs : list Gesture) (d : SpeakDaemon) :
  at_rest d = true ->
  at_rest (state_of (gestures xs d)) = true
  /\ submissions (output_of (gestures xs d)) = clips_due xs.
Proof.
  revert d. induction xs as [|x r IH]; intros d R.
  - split; [exact R | reflexivity].
  - assert (G : at_rest (state_of (gesture x d)) = true
                /\ submissions (output_of (gesture x d))
                   = clips_due [x]).
    { destruct x as [cs|cs|cs]; simpl gesture; unfold clips_due; simpl;
        rewrite ?app_nil_r.
      - apply push_to_talk_gesture_spec. exact R.
      - apply toggle_gesture_spec. exact R.
      - rewrite feed_idle.
        + split; [exact R | reflexivity].
        + unfold at_rest in R. destruct (is_recording d); [discriminate|reflexivity]. }
    destruct G as [G1 G2]. simpl gestures. unfold bind.
    destruct (gesture x d) as [[u d1] o1].
    unfold state_of, output_of in G1, G2. simpl in G1, G2.
    destruct (IH d1 G1) as [I1 I2].
    destruct (gestures r d1) as [[u2 d2] o2].
    unfold state_of, output_of in *. simpl in *.
    split; [exact I1|].
    rewrite submissions_app, G2, I2. unfold clips_due. simpl.
    rewrite app_nil_r. reflexivity.
Qed.

Lemma sessions_are_independent_witness :
  submissions
    (output_of
       (gestures [ToggleGesture [Sample.chunk_300ms];
                  StrayChunks [Sample.one];
                  PushToTalkGesture [Sample.chunk_100ms];
                  ToggleGesture [Sample.chunk_100ms; Sample.chunk_300ms]]
          init))
  = [Sample.chunk_300ms; Sample.chunk_100ms ++ Sample.chunk_300ms].
Proof.
  etransitivity.
  - apply (sessions_are_independent
             [ToggleGesture [Sample.chunk_300ms];
              StrayChunks [Sample.one];
              PushToTalkGesture [Sample.chunk_100ms];
              ToggleGesture [Sample.chunk_100ms; Sample.chunk_300ms]] init).
    reflexivity.
  - vm_compute. reflexivity.
Defined.

(** X12.  [stop_recording] leaves the daemon not recording; when it was
    recording, the buffer is empty and no stream is left.  A second
    [stop_recording] returns [None] and a [process_recording] on the
    stopped daemon only reports a too short recording: neither plays a
    cue, touches a stream or starts a thread. *)
Theorem stop_recording_settles (d : SpeakDaemon) :
  let d1 := state_of (stop_recording d) in
  is_recording d1 = false
  /\ (is_recording d = true -> audio_buffer d1 = [] /\ stream d1 = None)
  /\ stop_recording d1 = (None, d1, [])
  /\ process_recording d1 = (tt, d1, [Print MsgTooShort]).
Proof.
  cbv zeta. rewrite stop_recording_spec.
  destruct d as [ml rec buf st tog held]. destruct rec; simpl.
  - rewrite stop_recording_spec, process_recording_spec.
    split; [reflexivity|]. split; [intros _; split; reflexivity|].
    split; reflexivity.
  - rewrite stop_recording_spec, process_recording_spec.
    split; [reflexivity|]. split; [discriminate|].
    split; reflexivity.
Qed.

Lemma stop_recording_settles_witness :
  audio_buffer (state_of (stop_recording (Sample.held_recording Sample.one))) = []
  /\ stream (state_of (stop_recording (Sample.held_recording Sample.one))) = None.
Proof.
  refine (proj1 (proj2 (stop_recording_settles
                          (Sample.held_recording Sample.one))) _).
  reflexivity.
Defined.

End DriverFacts.

(** ** What the worker types *)

Section TrimFacts.

Import PyStr Trim.

Lemma lstrip_starts_clean (s : str) : starts_clean (lstrip s) = true.
Proof.
  induction s as [|c r IH]; simpl; [reflexivity|].
  destruct (isspace c) eqn:E; [exact IH | simpl; rewrite E; reflexivity].
Qed.

Lemma lstrip_clean (s : str) : starts_clean s = true -> lstrip s = s.
Proof.
  destruct s as [|c r]; simpl; [reflexivity|].
  intro H. apply negb_true_iff in H. rewrite H. reflexivity.
Qed.

Lemma rstrip_prefix (s : str) :
  exists q, s = rstrip s ++ q /\ forallb isspace q = true.
Proof.
  destruct (lstrip_suffix (rev s)) as [p [Hp Hs]].
  exists (rev p). split.
  - unfold rstrip. rewrite <- rev_app_distr, <- Hp, rev_involutive. reflexivity.
  - rewrite forallb_rev. exact Hs.
Qed.

Lemma rstrip_ends_clean (s : str) : ends_clean (rstrip s) = true.
Proof.
  unfold ends_clean, rstrip. rewrite rev_involutive. apply lstrip_starts_clean.
Qed.

Lemma rstrip_clean (s : str) : ends_clean s = true -> rstrip s = s.
Proof.
  unfold ends_clean, rstrip. intro H. rewrite (lstrip_clean _ H).
  apply rev_involutive.
Qed.

Lemma rstrip_keeps_start (s : str) :
  starts_clean s = true -> starts_clean (rstrip s) = true.
Proof.
  intro H. destruct (rstrip_prefix s) as [q [Hq _]].
  destruct (rstrip s) as [|c t]; [reflexivity|].
  rewrite Hq in H. exact H.
Qed.

(** [strip] takes white space, and only white space, off both
    ends: the text is the stripped text between two runs of white space,
    the stripped text neither starts nor ends with white space, and
    stripping it again changes nothing. *)
Theorem strip_takes_only_white_space (s : str) :
  (exists p q, s = p ++ strip s ++ q
               /\ forallb isspace p = true /\ forallb isspace q = true)
  /\ starts_clean (strip s) = true
  /\ ends_clean (strip s) = true
  /\ strip (strip s) = strip s.
Proof.
  assert (S : starts_clean (strip s) = true).
  { unfold strip. apply rstrip_keeps_start, lstrip_starts_clean. }
  assert (E : ends_clean (strip s) = true).
  { unfold strip. apply rstrip_ends_clean. }
  split; [|split; [exact S | split; [exact E|]]].
  - destruct (lstrip_suffix s) as [p [Hp Hs]].
    destruct (rstrip_prefix (lstrip s)) as [q [Hq Hw]].
    exists p, q. unfold strip. rewrite <- Hq. repeat split; assumption.
  - unfold strip at 1. rewrite (lstrip_clean _ S). apply rstrip_clean. exact E.
Qed.

End TrimFacts.

Section WorkerMore.

Import Daemon Contract Trim.

Variable whisper : Clip -> option PyStr.str.

Lemma transcribe_and_type_spec (audio : Clip) (d : SpeakDaemon) :
  let text := PyStr.strip (match whisper audio with Some t => t | None => [] end) in
  transcribe_and_type whisper audio d =
  (tt,
   if model_loaded d then d else set_model_loaded true d,
   ((if model_loaded d then [] else [Print MsgWaitingForModel; ModelLoadedWait])
    ++ [Print MsgTranscribing; WhisperTranscribe audio; Print (MsgResult text)])
   ++ (if PyStr.truthy text then [done_cue; Sleep 50; KeyboardType text] else [])).
Proof.
  cbv zeta. unfold transcribe_and_type, bind.
  pose proof (transcribe_spec whisper audio d) as T. cbv zeta in T. rewrite T.
  cbv beta iota zeta.
  destruct (PyStr.truthy (PyStr.strip _)) eqn:E.
  - rewrite type_text_spec, E. reflexivity.
  - reflexivity.
Qed.

(** X13.  Whatever the model answers, every text the worker types is
    not empty and neither starts nor ends with white space. *)
Theorem typed_text_is_trimmed (audio : Clip) (d : SpeakDaemon) (t : PyStr.str) :
  In t (typed (output_of (transcribe_and_type whisper audio d))) ->
  t <> [] /\ starts_clean t = true /\ ends_clean t = true.
Proof.
  pose proof (transcribe_and_type_spec audio d) as T. cbv zeta in T.
  rewrite T. clear T. unfold output_of. simpl snd.
  set (raw := match whisper audio with Some x => x | None => [] end).
  destruct (strip_takes_only_white_space raw) as [_ [S [E _]]].
  unfold typed. rewrite !flat_map_app.
  destruct (PyStr.truthy (PyStr.strip raw)) eqn:Y;
    destruct (model_loaded d); simpl; intro H;
    try contradiction; destruct H as [H|[]]; subst t.
  - repeat split; try assumption. intro N. rewrite N in Y. discriminate.
  - repeat split; try assumption. intro N. rewrite N in Y. discriminate.
Qed.

(** X14.  The worker calls the model exactly once, on the clip it was
    given, waits for the model exactly when it is not loaded yet, and
    changes nothing in the daemon but [model_loaded]: the recording
    flag, the buffer, the stream and the two chord flags are as before. *)
Theorem worker_leaves_recording_alone (audio : Clip) (d : SpeakDaemon) :
  let r := transcribe_and_type whisper audio d in
  state_of r = set_model_loaded true d
  /\ transcribed (output_of r) = [audio]
  /\ waited (output_of r) = negb (model_loaded d)
  /\ submissions (output_of r) = []
  /\ Driver.count Driver.is_stream_start (output_of r) = O
  /\ Driver.count Driver.is_stream_stop (output_of r) = O.
Proof.
  cbv zeta.
  pose proof (transcribe_and_type_spec audio d) as T. cbv zeta in T.
  rewrite T. clear T. unfold output_of, state_of. simpl fst; simpl snd.
  destruct d as [ml rec buf st tog held].
  destruct ml, (PyStr.truthy _); repeat split.
Qed.

End WorkerMore.

Section WorkerMoreExamples.

Import Daemon Trim.

Lemma typed_text_is_trimmed_witness :
  starts_clean Sample.hello_world = true /\ ends_clean Sample.hello_world = true.
Proof.
  refine (proj2 (typed_text_is_trimmed
                   (fun _ => Some (Sample.blank ++ Sample.hello_world ++ Sample.blank))
                   Sample.one init Sample.hello_world _)).
  vm_compute. left. reflexivity.
Defined.

End WorkerMoreExamples.

(** ** Neither thread blocks the other for good *)

Section ProgressFacts.

Import Progress.

(** X15.  From every state that the callback and [stop_recording] can
    reach together, both can run to their end: the thread that holds
    the lock can always give it back, [stop_recording] returns, the
    callback leaves, and the lock is free afterwards. *)
Theorem stop_and_callback_can_always_finish (ms : list Race.Move) (s : Race.State) :
  Race.run ms Race.session = Some s ->
  exists s' r,
    Race.run (let_both_finish s) s = Some s'
    /\ Race.stopper s' = Race.SpReturned r
    /\ Race.callback s' = Race.CbIdle
    /\ Race.audio_lock s' = None.
Proof.
  intro H.
  destruct (race_run_invariant ms Race.session s session_invariant H)
    as [L [F _]].
  destruct s as [rec buf lk cb sp dl].
  unfold Race.lock_ok, Race.flag_ok in L, F. simpl in L, F.
  unfold let_both_finish, let_stop_return. simpl.
  destruct lk as [[|]|]; destruct L as [L1 L2].
  - destruct L1 as [x L1]. subst cb.
    destruct sp; try (exfalso; apply L2; reflexivity); subst rec; simpl;
      eexists; eexists; repeat split.
  - subst sp. destruct cb as [|x|x];
      try (exfalso; apply (L2 x); reflexivity); subst rec; simpl;
      eexists; eexists; repeat split.
  - destruct cb as [|x|x]; try (exfalso; apply (L2 x); reflexivity);
      destruct sp; try (exfalso; apply L1; reflexivity); subst rec; simpl;
      eexists; eexists; repeat split.
Qed.

Lemma stop_and_callback_can_always_finish_witness :
  exists s s' r,
    Race.run [Race.Deliver Sample.one; Race.StopStep; Race.StopStep;
              Race.AudioStep] Race.session = Some s
    /\ Race.run (let_both_finish s) s = Some s'
    /\ Race.stopper s' = Race.SpReturned r
    /\ Race.audio_lock s' = None.
Proof.
  destruct (Race.run [Race.Deliver Sample.one; Race.StopStep; Race.StopStep;
                      Race.AudioStep] Race.session) as [s|] eqn:E;
    [|vm_compute in E; discriminate].
  destruct (stop_and_callback_can_always_finish _ s E) as [s' [r [R [S [_ K]]]]].
  exists s, s', r. repeat split; assumption.
Defined.

Lemma gate_run_app (a b : list Gate.Move) (s : Gate.State) :
  Gate.run (a ++ b) s
  = match Gate.run a s with Some s1 => Gate.run b s1 | None => None end.
Proof.
  revert s. induction a as [|m r IH]; intro s; simpl; [reflexivity|].
  destruct (Gate.step m s); [apply IH | reflexivity].
Qed.

Lemma finish_loading_run (s : Gate.State) :
  Gate.invariant s ->
  exists s1, Gate.run (Gate.finish_loading (Gate.loader s)) s = Some s1
             /\ Gate.model_loaded s1 = true
             /\ Gate.workers s1 = Gate.workers s.
Proof.
  intros [L _]. destruct s as [b l w]. simpl in L.
  destruct l; simpl; eexists; repeat split.
  simpl. apply L. reflexivity.
Qed.

Lemma finish_worker_run (i : nat) (w : Gate.WorkerPc) (s : Gate.State) :
  Gate.model_loaded s = true ->
  nth_error (Gate.workers s) i = Some w ->
  exists s', Gate.run (finish_worker i w) s = Some s'
             /\ nth_error (Gate.workers s') i = Some Gate.WkDone
             /\ Gate.model_loaded s' = true.
Proof.
  intros T N. destruct s as [b l ws]. simpl in T, N. subst b.
  destruct w; simpl; rewrite ?N; simpl.
  - rewrite (nth_error_set_nth i Gate.WkInvoke Gate.WkEntry ws N). simpl.
    eexists. repeat split. simpl.
    apply (nth_error_set_nth i Gate.WkDone Gate.WkInvoke).
    apply (nth_error_set_nth i Gate.WkInvoke Gate.WkEntry ws N).
  - rewrite (nth_error_set_nth i Gate.WkInvoke Gate.WkWait ws N). simpl.
    eexists. repeat split. simpl.
    apply (nth_error_set_nth i Gate.WkDone Gate.WkInvoke).
    apply (nth_error_set_nth i Gate.WkInvoke Gate.WkWait ws N).
  - eexists. repeat split. simpl.
    apply (nth_error_set_nth i Gate.WkDone Gate.WkInvoke ws N).
  - eexists. repeat split. exact N.
Qed.

(** X16.  No accepted clip waits for ever: from every state the loader
    and the workers can reach, the loader's remaining moves set the flag
    and any worker, wherever it stands (before the test, in [wait()],
    before the model call), can then run to its end. *)
Theorem every_worker_can_finish
  (ms : list Gate.Move) (s : Gate.State) (i : nat) (w : Gate.WorkerPc) :
  Gate.run ms Gate.init = Some s ->
  nth_error (Gate.workers s) i = Some w ->
  exists s', Gate.run (let_worker_finish i s) s = Some s'
             /\ nth_error (Gate.workers s') i = Some Gate.WkDone
             /\ Gate.model_loaded s' = true.
Proof.
  intros H N.
  pose proof (gate_run_invariant ms Gate.init s init_invariant H) as I.
  destruct (finish_loading_run s I) as [s1 [R1 [T1 W1]]].
  unfold let_worker_finish. rewrite N, gate_run_app, R1.
  apply finish_worker_run; [exact T1 | rewrite W1; exact N].
Qed.

Lemma every_worker_can_finish_witness :
  exists s s',
    Gate.run [Gate.Spawn; Gate.WorkerStep 0; Gate.LoaderStep] Gate.init = Some s
    /\ nth_error (Gate.workers s) 0 = Some Gate.WkWait
    /\ Gate.run (let_worker_finish 0 s) s = Some s'
    /\ nth_error (Gate.workers s') 0 = Some Gate.WkDone.
Proof.
  destruct (Gate.run [Gate.Spawn; Gate.WorkerStep 0; Gate.LoaderStep] Gate.init)
    as [s|] eqn:E; [|vm_compute in E; discriminate].
  assert (N : nth_error (Gate.workers s) 0 = Some Gate.WkWait)
    by (vm_compute in E; injection E as <-; reflexivity).
  destruct (every_worker_can_finish _ s 0 Gate.WkWait E N) as [s' [R [D _]]].
  exists s, s'. repeat split; assumption.
Defined.

End ProgressFacts.

(** ** Sessions without overlap *)

Section SessionExamples.

Import Daemon.

(** A chunk a racing callback left in the buffer is gone from the next
    session's clip. *)
Lemma sequential_session_clip_witness :
  value_of
    (stop_recording
       (state_of
          (Contract.feed [Sample.chunk_300ms]
             (state_of
                (start_recording
                   (set_audio_buffer [Sample.two]
                      (state_of (stop_recording
                                   (Sample.held_recording Sample.one)))))))))
  = Some Sample.chunk_300ms.
Proof.
  etransitivity.
  - apply (sequential_session_clip [Sample.chunk_300ms]
             (set_audio_buffer [Sample.two]
                (state_of (stop_recording (Sample.held_recording Sample.one))))).
    reflexivity.
  - vm_compute. reflexivity.
Defined.

Lemma exact_clip_when_stop_waits_witness :
  exists s,
    Race.run [Race.Deliver Sample.one; Race.StopStep; Race.AudioStep;
              Race.StopStep; Race.AudioStep; Race.StopStep; Race.StopStep;
              Race.StopStep] Race.session = Some s
    /\ Race.stopper s = Race.SpReturned (Race.finalize (Race.accepted s))
    /\ Race.audio_buffer s = [].
Proof.
  destruct (Race.run [Race.Deliver Sample.one; Race.StopStep; Race.AudioStep;
                      Race.StopStep; Race.AudioStep; Race.StopStep;
                      Race.StopStep; Race.StopStep] Race.session)
    as [s|] eqn:E; [|vm_compute in E; discriminate].
  assert (R : Race.stopper s = Race.SpReturned (Some Sample.one))
    by (vm_compute in E; injection E as <-; reflexivity).
  destruct (exact_clip_when_stop_waits _ s _ E eq_refl R) as [K [B _]].
  exists s. split; [reflexivity|]. split; [rewrite R, K; reflexivity | exact B].
Defined.

End SessionExamples.

(** ** What reaches the transcription thread *)

Section SubmissionFacts.

Import Daemon Contract Driver.

Lemma handed_over_long (buf : list Chunk) :
  Forall (fun a => 4800 <= Z.of_nat (List.length a)) (handed_over buf).
Proof.
  unfold handed_over. destruct (Race.finalize buf) as [a|]; [|constructor].
  destruct (too_short a) eqn:E; constructor; [|constructor].
  rewrite too_short_spec in E. apply Z.ltb_ge in E. exact E.
Qed.

Lemma submissions_start_recording (d : SpeakDaemon) :
  submissions (output_of (start_recording d)) = [].
Proof. rewrite start_recording_spec. destruct (is_recording d); reflexivity. Qed.

Lemma submissions_run_handler (h : Router.Handler) (d : SpeakDaemon) :
  submissions (output_of (Router.run_handler h d)) = []
  \/ exists buf, submissions (output_of (Router.run_handler h d)) = handed_over buf.
Proof.
  destruct h; simpl Router.run_handler.
  - rewrite handle_push_to_talk_down_spec.
    destruct (negb _ && negb _); [|left; reflexivity].
    left. apply submissions_start_recording.
  - rewrite handle_push_to_talk_up_spec.
    destruct (push_to_talk_held d); [|left; reflexivity].
    destruct (is_recording d && negb _); [|left; reflexivity].
    rewrite submissions_process_recording.
    destruct (is_recording _); [right; eexists; reflexivity | left; reflexivity].
  - rewrite handle_toggle_spec. destruct (toggle_mode_active d).
    + rewrite submissions_process_recording.
      destruct (is_recording _); [right; eexists; reflexivity | left; reflexivity].
    + left. apply submissions_start_recording.
Qed.

Lemma submissions_call_long (g : Router.Globals) (c : Call) (d : SpeakDaemon) :
  Forall (fun a => 4800 <= Z.of_nat (List.length a))
         (submissions (output_of (call g c d))).
Proof.
  assert (Hh : forall h d0,
             Forall (fun a => 4800 <= Z.of_nat (List.length a))
                    (submissions (output_of (Router.run_handler h d0)))).
  { intros h d0. destruct (submissions_run_handler h d0) as [E|[buf E]];
      rewrite E; [constructor | apply handed_over_long]. }
  destruct c as [et ev|h|x status]; simpl call.
  - unfold Router.deliver. simpl fst; simpl snd.
    pose proof (dispatched_at_most_one g et ev) as L.
    destruct (Router.dispatched (Router.event_tap_callback g et ev))
      as [|h [|h2 r]]; simpl in L; try lia; simpl Router.run_handlers.
    + constructor.
    + unfold bind, ret. specialize (Hh h d).
      destruct (Router.run_handler h d) as [[u d1] o1].
      unfold output_of in *. simpl in *. rewrite app_nil_r. exact Hh.
  - apply Hh.
  - rewrite audio_callback_spec. destruct status; constructor.
Qed.

(** X17.  Whatever key events, handler runs and audio callbacks a daemon
    goes through, from whatever state, every clip it hands to a
    transcription thread has at least 4800 samples (300 ms at 16 kHz). *)
Theorem every_submitted_clip_is_long_enough
  (g : Router.Globals) (cs : list Call) (d : SpeakDaemon) :
  Forall (fun a => 1000 * Z.of_nat (List.length a) >= 300 * Config.SAMPLE_RATE)
         (submissions (output_of (calls g cs d))).
Proof.
  assert (F : Forall (fun a => 4800 <= Z.of_nat (List.length a))
                     (submissions (output_of (calls g cs d)))).
  { revert d. induction cs as [|c r IH]; intro d; [constructor|].
    simpl calls. unfold bind.
    pose proof (submissions_call_long g c d) as H1.
    destruct (call g c d) as [[u d1] o1].
    specialize (IH d1).
    destruct (calls g r d1) as [[u2 d2] o2].
    unfold output_of in *. simpl in *.
    rewrite submissions_app. apply Forall_app. split; assumption. }
  eapply Forall_impl; [|exact F].
  intros a H. unfold Config.SAMPLE_RATE. simpl in H. lia.
Qed.

Lemma calls_app (g : Router.Globals) (a b : list Call) (d : SpeakDaemon) :
  calls g (a ++ b) d = bind (calls g a) (fun _ => calls g b) d.
Proof.
  revert d. induction a as [|c r IH]; intro d; simpl.
  - unfold bind, ret. destruct (calls g b d) as [[u d1] o1]. reflexivity.
  - unfold bind in *. destruct (call g c d) as [[u d1] o1].
    rewrite IH. destruct (calls g r d1) as [[u2 d2] o2].
    destruct (calls g b d2) as [[u3 d3] o3]. rewrite app_assoc. reflexivity.
Qed.

Lemma calls_audio (g : Router.Globals) (cs : list Chunk) (d : SpeakDaemon) :
  calls g (map (fun c => Audio c false) cs) d = feed cs d.
Proof.
  revert d. induction cs as [|c r IH]; intro d; simpl; [reflexivity|].
  unfold bind. destruct (audio_callback c false d) as [[u d1] o1].
  rewrite IH. reflexivity.
Qed.

Lemma calls_repeats (g : Router.Globals) (reps : list Quartz.CGEvent) (d : SpeakDaemon) :
  Forall (fun ev => Quartz.kCGKeyboardEventAutorepeat ev <> 0) reps ->
  calls g (map (Key Quartz.kCGEventKeyDown) reps) d = (tt, d, []).
Proof.
  intro F. induction F as [|ev r H F IH]; simpl; [reflexivity|].
  unfold bind, Router.deliver. simpl fst; simpl snd.
  rewrite repeat_press_dispatches_nothing.
  - simpl. unfold ret. rewrite IH. reflexivity.
  - unfold Router.is_repeat_press. apply Z.eqb_neq in H. rewrite H. reflexivity.
Qed.

Lemma deliver_one (g : Router.Globals) (et : Z) (ev : Quartz.CGEvent)
      (h : Router.Handler) (d : SpeakDaemon) :
  Router.dispatched (Router.event_tap_callback g et ev) = [h] ->
  Router.deliver g (et, ev) d = Router.run_handler h d.
Proof.
  intro H. unfold Router.deliver. simpl fst; simpl snd. rewrite H. simpl.
  unfold bind, ret. destruct (Router.run_handler h d) as [[[] d1] o1].
  rewrite app_nil_r. reflexivity.
Qed.

(** X18.  Through the tap, from a daemon at rest: a first press of
    Option+R, any number of auto-repeat presses while it is held, chunks
    from the audio device, and the release of Option+R (whatever its
    repeat field) make one recording.  It hands over the concatenation
    of exactly those chunks when they make at least 4800 samples, and
    nothing otherwise, and leaves the daemon at rest. *)
Theorem held_key_records_one_clip
  (g : Router.Globals) (down up : Quartz.CGEvent)
  (reps : list Quartz.CGEvent) (cs : list Chunk) (d : SpeakDaemon) :
  Router.daemon g = true ->
  at_rest d = true ->
  Router.option_held down = true ->
  Quartz.kCGKeyboardEventKeycode down = Config.KEYCODE_R ->
  Quartz.kCGKeyboardEventAutorepeat down = 0 ->
  Router.option_held up = true ->
  Quartz.kCGKeyboardEventKeycode up = Config.KEYCODE_R ->
  Forall (fun ev => Quartz.kCGKeyboardEventAutorepeat ev <> 0) reps ->
  let r := calls g (Key Quartz.kCGEventKeyDown down
                    :: map (Key Quartz.kCGEventKeyDown) reps
                    ++ map (fun c => Audio c false) cs
                    ++ [Key Quartz.kCGEventKeyUp up]) d in
  at_rest (state_of r) = true
  /\ submissions (output_of r) = handed_over cs.
Proof.
  intros Hg R Do Dk Dr Uo Uk F. cbv zeta.
  assert (E : calls g (Key Quartz.kCGEventKeyDown down
                       :: map (Key Quartz.kCGEventKeyDown) reps
                       ++ map (fun c => Audio c false) cs
                       ++ [Key Quartz.kCGEventKeyUp up]) d
              = push_to_talk_gesture cs d).
  { simpl calls. unfold push_to_talk_gesture, bind.
    rewrite (deliver_one g _ down Router.HandlePushToTalkDown).
    2:{ unfold Router.event_tap_callback, Router.option_held in *.
        rewrite Hg, Do, Dk, Dr. reflexivity. }
    simpl Router.run_handler.
    destruct (handle_push_to_talk_down d) as [[u d1] o1].
    rewrite calls_app. unfold bind. rewrite (calls_repeats g reps d1 F).
    rewrite calls_app. unfold bind. rewrite calls_audio.
    destruct (feed cs d1) as [[u2 d2] o2].
    simpl calls. unfold bind.
    rewrite (deliver_one g _ up Router.HandlePushToTalkUp).
    2:{ unfold Router.event_tap_callback, Router.option_held in *.
        rewrite Hg, Uo, Uk. simpl.
        destruct (Quartz.kCGKeyboardEventAutorepeat up =? 0); reflexivity. }
    simpl Router.run_handler.
    destruct (handle_push_to_talk_up d2) as [[[] d3] o3].
    unfold ret. simpl. rewrite !app_nil_r. reflexivity. }
  rewrite E. apply push_to_talk_gesture_spec. exact R.
Qed.

Lemma held_key_records_one_clip_witness :
  submissions
    (output_of
       (calls Sample.installed
          (Key Quartz.kCGEventKeyDown (Sample.key Config.KEYCODE_R 0)
           :: map (Key Quartz.kCGEventKeyDown)
                  [Sample.key Config.KEYCODE_R 1; Sample.key Config.KEYCODE_R 1]
           ++ map (fun c => Audio c false) [Sample.chunk_100ms; Sample.chunk_300ms]
           ++ [Key Quartz.kCGEventKeyUp (Sample.key Config.KEYCODE_R 0)])
          init))
  = [Sample.chunk_100ms ++ Sample.chunk_300ms].
Proof.
  etransitivity.
  - refine (proj2 (held_key_records_one_clip Sample.installed
                     (Sample.key Config.KEYCODE_R 0)
                     (Sample.key Config.KEYCODE_R 0)
                     [Sample.key Config.KEYCODE_R 1; Sample.key Config.KEYCODE_R 1]
                     [Sample.chunk_100ms; Sample.chunk_300ms] init
                     _ _ _ _ _ _ _ _)); try reflexivity.
    repeat constructor; discriminate.
  - vm_compute. reflexivity.
Defined.

End SubmissionFacts.
